(** * text-insights-backend: the PST extraction engine of [app.py]

    A shallow embedding of [decode_if_bytes], [process_pst_folder],
    [analyze_pst] and [download_file], and the properties of the
    extraction engine: the text normaliser, the recipient scan, the
    attachment names, the traversal order, the isolation of failing
    nodes, the two sinks, the answers of a request and the download of
    its file.

    Python values are modelled as follows.
    - [str] is a list of Unicode code points ([pystr]), [bytes] a list of
      [Byte.byte].
    - A call that may raise returns a [Res]: [Ok v] or [Raise e].
    - The objects of [pypff] (folder, message, attachment) are records of
      their methods; a method with an index argument is a function of the
      index.
    - [emails] and [csv_writer], the two arguments that
      [process_pst_folder] mutates, are threaded as a state ([Sinks]); an
      exception leaves the state as it was when it was raised.
    - The recursion of [process_pst_folder] runs under the recursion
      limit of the interpreter: a walk is given the number of nested
      calls that the limit leaves room for, and a call for which there
      is no room raises [RecursionError] in the [try] of its caller.
    - A request is given by what it meets ([Env]): the upload and the
      length of the body, the archive, the clock, the outcome of writing
      the CSV file (written, not opened, or opened and not written in
      full) and the outcome of removing the saved upload in the
      [finally].
    - The disk that [download_file] reads is given by what
      [os.path.exists] and [send_file] answer for a path.
    - The calls to [logger] change neither the sinks nor the control flow
      and are left out. *)

From Stdlib Require Import List ZArith NArith Bool Lia String Ascii.
From Stdlib.Strings Require Import Byte.
Import ListNotations.

Local Open Scope N_scope.

(* ================================================================= *)
(** ** Python strings *)

(** A [str]: its code points, in order. *)
Definition pystr : Type := list N.

(** The [str] of an ASCII literal. *)
Definition lit (s : string) : pystr :=
  map N_of_ascii (list_ascii_of_string s).

(** Equality of two [str]. *)
Fixpoint str_eqb (a b : pystr) : bool :=
  match a, b with
  | [], [] => true
  | x :: a', y :: b' => (x =? y) && str_eqb a' b'
  | _, _ => false
  end.

(** [s.startswith(p)] *)
Fixpoint startswith (s p : pystr) {struct p} : bool :=
  match p with
  | [] => true
  | c :: p' =>
      match s with
      | [] => false
      | d :: s' => (d =? c) && startswith s' p'
      end
  end.

(** [s.endswith(p)] *)
Definition endswith (s p : pystr) : bool :=
  startswith (rev s) (rev p).

(** [s.split(sep)] for a one-character separator: never an empty list. *)
Fixpoint split (sep : N) (s : pystr) : list pystr :=
  match s with
  | [] => [[]]
  | c :: s' =>
      if c =? sep then [] :: split sep s'
      else match split sep s' with
           | line :: lines => (c :: line) :: lines
           | [] => [[c]]
           end
  end.

(** [c.isspace()]: the code points that [str.strip()] removes. *)
Definition isspace (c : N) : bool :=
  ((0x09 <=? c) && (c <=? 0x0D)) || ((0x1C <=? c) && (c <=? 0x20))
  || (c =? 0x85) || (c =? 0xA0) || (c =? 0x1680)
  || ((0x2000 <=? c) && (c <=? 0x200A))
  || (c =? 0x2028) || (c =? 0x2029) || (c =? 0x202F) || (c =? 0x205F)
  || (c =? 0x3000).

Fixpoint lstrip (s : pystr) : pystr :=
  match s with
  | [] => []
  | c :: s' => if isspace c then lstrip s' else s
  end.

Definition rstrip (s : pystr) : pystr := rev (lstrip (rev s)).

(** [s.strip()] *)
Definition strip (s : pystr) : pystr := rstrip (lstrip s).

(** [sep.join(parts)] *)
Fixpoint join (sep : pystr) (parts : list pystr) : pystr :=
  match parts with
  | [] => []
  | [p] => p
  | p :: rest => p ++ sep ++ join sep rest
  end.

(** The decimal digits of a number, most significant first. *)
Fixpoint uint_digits (d : Decimal.uint) : pystr :=
  match d with
  | Decimal.Nil => []
  | Decimal.D0 d' => 48 :: uint_digits d'
  | Decimal.D1 d' => 49 :: uint_digits d'
  | Decimal.D2 d' => 50 :: uint_digits d'
  | Decimal.D3 d' => 51 :: uint_digits d'
  | Decimal.D4 d' => 52 :: uint_digits d'
  | Decimal.D5 d' => 53 :: uint_digits d'
  | Decimal.D6 d' => 54 :: uint_digits d'
  | Decimal.D7 d' => 55 :: uint_digits d'
  | Decimal.D8 d' => 56 :: uint_digits d'
  | Decimal.D9 d' => 57 :: uint_digits d'
  end.

(** The number in decimal, padded with zeros on the left to [width]. *)
Definition zero_padded (width : nat) (n : N) : pystr :=
  let ds := uint_digits (N.to_uint n) in
  repeat 48 (width - List.length ds) ++ ds.

(** One lower-case hexadecimal digit. *)
Definition hex_digit (n : N) : N :=
  if n <? 10 then 48 + n else 87 + n.

(* ================================================================= *)
(** ** Exceptions and results *)

(** The exceptions that the modelled calls raise. *)
Inductive exn : Type :=
| UnicodeDecodeError
| OSError (msg : pystr)
| ValueError (msg : pystr)
| IndexError (msg : pystr)
| RecursionError.

(** [str(e)] *)
Definition exn_str (e : exn) : pystr :=
  match e with
  | UnicodeDecodeError => lit "codec can't decode bytes"
  | OSError msg | ValueError msg | IndexError msg => msg
  | RecursionError => lit "maximum recursion depth exceeded"
  end.

(** [isinstance(e, UnicodeDecodeError)] *)
Definition is_UnicodeDecodeError (e : exn) : bool :=
  match e with
  | UnicodeDecodeError => true
  | _ => false
  end.

(** The outcome of a call: a value, or an exception. *)
Inductive Res (A : Type) : Type :=
| Ok (a : A)
| Raise (e : exn).
Arguments Ok {A} a.
Arguments Raise {A} e.
Scheme All for Res.

Definition bindR {A B : Type} (r : Res A) (k : A -> Res B) : Res B :=
  match r with
  | Ok a => k a
  | Raise e => Raise e
  end.

(** [try: r  except <handles>: h e]; an exception that the clause does
    not name goes on. *)
Definition try_except {A : Type} (r : Res A) (handles : exn -> bool)
    (h : exn -> Res A) : Res A :=
  match r with
  | Ok a => Ok a
  | Raise e => if handles e then h e else Raise e
  end.

(** [except:] and [except Exception:] *)
Definition any_exception (e : exn) : bool := true.

Declare Scope res_scope.
Delimit Scope res_scope with res.
Notation "x <- r ;; k" := (bindR r (fun x => k))
  (at level 61, r at next level, right associativity) : res_scope.
Notation "r ;; k" := (bindR r (fun _ => k))
  (at level 61, right associativity) : res_scope.

(* ================================================================= *)
(** ** Values read from the archive *)

(** A naive [datetime.datetime]. *)
Record datetime : Type := mkDatetime {
  year : N; month : N; day : N;
  hour : N; minute : N; second : N; microsecond : N
}.

(** What a [pypff] getter returns: [None], a [str], a [bytes] or (for the
    delivery time) a [datetime]. *)
Inductive PyVal : Type :=
| VNone
| VStr (s : pystr)
| VBytes (b : list byte)
| VDatetime (d : datetime).

(** Truth value: [if v:]. *)
Definition truthy (v : PyVal) : bool :=
  match v with
  | VNone => false
  | VStr [] => false
  | VStr _ => true
  | VBytes [] => false
  | VBytes _ => true
  | VDatetime _ => true
  end.

(** [str(d)] of a naive datetime: [d.isoformat(sep=' ')]. *)
Definition datetime_str (d : datetime) : pystr :=
  zero_padded 4 (year d) ++ lit "-" ++ zero_padded 2 (month d) ++ lit "-"
  ++ zero_padded 2 (day d) ++ lit " " ++ zero_padded 2 (hour d) ++ lit ":"
  ++ zero_padded 2 (minute d) ++ lit ":" ++ zero_padded 2 (second d)
  ++ (if microsecond d =? 0 then []
      else lit "." ++ zero_padded 6 (microsecond d)).

(** One byte inside [repr(b)], for the quote character [q]. *)
Definition repr_byte (q : N) (b : N) : pystr :=
  if b =? 92 then [92; 92]
  else if b =? q then [92; q]
  else if b =? 9 then [92; 116]
  else if b =? 10 then [92; 110]
  else if b =? 13 then [92; 114]
  else if (b <? 32) || (127 <=? b)
       then [92; 120; hex_digit (b / 16); hex_digit (b mod 16)]
  else [b].

(** [str(b)] of a [bytes], which is [repr(b)]: the bytes between single
    quotes after a [b], or between double quotes when they hold a single
    quote and no double quote. *)
Definition bytes_repr (b : list byte) : pystr :=
  let ns := map Byte.to_N b in
  let has c := existsb (N.eqb c) ns in
  let q := if has 39 && negb (has 34) then 34 else 39 in
  [98; q] ++ flat_map (repr_byte q) ns ++ [q].

(** [str(v)] *)
Definition py_str (v : PyVal) : pystr :=
  match v with
  | VNone => lit "None"
  | VStr s => s
  | VBytes b => bytes_repr b
  | VDatetime d => datetime_str d
  end.

(* ================================================================= *)
(** ** Codecs *)

(** A continuation byte, [0x80 .. 0xBF]. *)
Definition is_cont (b : N) : bool := (0x80 <=? b) && (b <=? 0xBF).

Definition in_range (lo hi b : N) : bool := (lo <=? b) && (b <=? hi).

(** The strict UTF-8 decoder: shortest forms only, no surrogates, nothing
    above U+10FFFF. [None] is the [UnicodeDecodeError]. *)
Fixpoint utf8_decode (bs : list N) : option pystr :=
  match bs with
  | [] => Some []
  | b0 :: r0 =>
      if b0 <? 0x80 then option_map (cons b0) (utf8_decode r0)
      else if in_range 0xC2 0xDF b0 then
        match r0 with
        | b1 :: r1 =>
            if is_cont b1
            then option_map (cons ((b0 - 0xC0) * 64 + (b1 - 0x80)))
                            (utf8_decode r1)
            else None
        | _ => None
        end
      else if in_range 0xE0 0xEF b0 then
        match r0 with
        | b1 :: b2 :: r2 =>
            if in_range (if b0 =? 0xE0 then 0xA0 else 0x80)
                        (if b0 =? 0xED then 0x9F else 0xBF) b1
               && is_cont b2
            then option_map
                   (cons ((b0 - 0xE0) * 4096 + (b1 - 0x80) * 64
                          + (b2 - 0x80)))
                   (utf8_decode r2)
            else None
        | _ => None
        end
      else if in_range 0xF0 0xF4 b0 then
        match r0 with
        | b1 :: b2 :: b3 :: r3 =>
            if in_range (if b0 =? 0xF0 then 0x90 else 0x80)
                        (if b0 =? 0xF4 then 0x8F else 0xBF) b1
               && is_cont b2 && is_cont b3
            then option_map
                   (cons ((b0 - 0xF0) * 262144 + (b1 - 0x80) * 4096
                          + (b2 - 0x80) * 64 + (b3 - 0x80)))
                   (utf8_decode r3)
            else None
        | _ => None
        end
      else None
  end.

(** [value.decode('utf-8')] *)
Definition decode_utf8 (value : list byte) : Res pystr :=
  match utf8_decode (map Byte.to_N value) with
  | Some s => Ok s
  | None => Raise UnicodeDecodeError
  end.

(** [value.decode('latin-1')]: every byte is its own code point. *)
Definition decode_latin1 (value : list byte) : Res pystr :=
  Ok (map Byte.to_N value).

(** A Unicode scalar value: a code point up to U+10FFFF that is no
    surrogate. *)
Definition is_scalar (c : N) : bool :=
  (c <? 0x110000) && negb ((0xD800 <=? c) && (c <=? 0xDFFF)).

(** [s.encode('utf-8')], one character at a time: the bytes that
    [value.decode('utf-8')] is the inverse of. *)
Definition utf8_encode_char (c : N) : list N :=
  if c <? 0x80 then [c]
  else if c <? 0x800 then [0xC0 + c / 64; 0x80 + c mod 64]
  else if c <? 0x10000
       then [0xE0 + c / 4096; 0x80 + (c / 64) mod 64; 0x80 + c mod 64]
  else [0xF0 + c / 262144; 0x80 + (c / 4096) mod 64;
        0x80 + (c / 64) mod 64; 0x80 + c mod 64].

Definition utf8_encode (s : pystr) : list N := flat_map utf8_encode_char s.


(* ================================================================= *)
(** ** [decode_if_bytes] *)

(** Lines 50-60. *)
Definition decode_if_bytes (value : PyVal) : Res pystr :=
  match value with
  | VBytes b =>
      try_except (decode_utf8 b) is_UnicodeDecodeError (fun _ =>
        try_except (decode_latin1 b) any_exception (fun _ =>
          Ok (py_str value)))
  | _ =>
      Ok (match value with
          | VNone => []
          | _ => py_str value
          end)
  end.

(** The text that [decode_if_bytes] returns. *)
Definition decoded (value : PyVal) : pystr :=
  match value with
  | VNone => []
  | VStr s => s
  | VBytes b =>
      match utf8_decode (map Byte.to_N b) with
      | Some text => text
      | None => map Byte.to_N b
      end
  | VDatetime d => datetime_str d
  end.

(* ================================================================= *)
(** ** The objects of [pypff] *)

(** An attachment: its two getters. *)
Record Attachment : Type := mkAttachment {
  get_long_filename : Res PyVal;
  get_short_filename : Res PyVal
}.

(** A message: its getters; [get_attachment] takes the index. *)
Record Message : Type := mkMessage {
  get_sender_name : Res PyVal;
  get_subject : Res PyVal;
  get_plain_text_body : Res PyVal;
  get_delivery_time : Res PyVal;
  get_transport_headers : Res PyVal;
  get_number_of_attachments : Res Z;
  get_attachment : Z -> Res Attachment
}.

(** A folder: the two counts, and the message and the sub-folder at an
    index. *)
Inductive Folder : Type :=
| mkFolder (number_of_sub_messages : Res Z)
           (sub_message : Z -> Res Message)
           (number_of_sub_folders : Res Z)
           (sub_folder : Z -> Res Folder).

Definition get_number_of_sub_messages (folder : Folder) : Res Z :=
  match folder with mkFolder n _ _ _ => n end.

Definition get_sub_message (folder : Folder) : Z -> Res Message :=
  match folder with mkFolder _ m _ _ => m end.

Definition get_number_of_sub_folders (folder : Folder) : Res Z :=
  match folder with mkFolder _ _ n _ => n end.

Definition get_sub_folder (folder : Folder) : Z -> Res Folder :=
  match folder with mkFolder _ _ _ f => f end.

(** [count] consecutive integers from [start]. *)
Fixpoint range_from (start : Z) (count : nat) : list Z :=
  match count with
  | O => []
  | S count' => start :: range_from (start + 1) count'
  end.

(** [range(n)]: [0 .. n-1], empty when [n <= 0]. *)
Definition range (n : Z) : list Z := range_from 0 (Z.to_nat n).

(** [for x in xs: acc = body acc x], where the body may raise. *)
Fixpoint for_fold {A : Type} (body : A -> Z -> Res A) (xs : list Z)
    (acc : A) : Res A :=
  match xs with
  | [] => Ok acc
  | x :: xs' => bindR (body acc x) (for_fold body xs')
  end.

(* ================================================================= *)
(** ** The record and the two sinks *)

(** The dict [email_data] of lines 102-109. *)
Record EmailData : Type := mkEmailData {
  email_from : pystr;
  email_to : pystr;
  email_subject : pystr;
  email_body : pystr;
  email_date : pystr;
  email_attachments : list pystr
}.

(** An [io.StringIO]: writing to a closed one raises [ValueError]. *)
Record StringIO : Type := mkStringIO {
  closed : bool;
  getvalue : pystr
}.

(** What [csv.writer] writes for one value: nothing for [None], the
    string itself, [str(v)] for anything else. *)
Definition csv_text (v : PyVal) : pystr :=
  match v with
  | VNone => []
  | VStr s => s
  | _ => py_str v
  end.

(** The characters that make the writer quote a field (excel dialect,
    [QUOTE_MINIMAL]): the delimiter, the quote character and the
    characters of the line terminator. *)
Definition csv_special (c : N) : bool :=
  (c =? 44) || (c =? 34) || (c =? 13) || (c =? 10).

(** A field between quotes, its quotes doubled. *)
Definition csv_quote (s : pystr) : pystr :=
  [34] ++ flat_map (fun c => if c =? 34 then [34; 34] else [c]) s ++ [34].

(** One field of a row of [nfields] fields. *)
Definition csv_field (nfields : nat) (v : PyVal) : pystr :=
  let s := csv_text v in
  if existsb csv_special s
     || (Nat.eqb nfields 1 && Nat.eqb (List.length s) 0)
  then csv_quote s
  else s.

(** The line that [writerow(row)] writes. *)
Definition csv_line (row : list PyVal) : pystr :=
  join [44] (map (csv_field (List.length row)) row) ++ [13; 10].

(** [csv.writer(f).writerow(row)]: the line is built, then written to
    [f] in one call. *)
Definition writerow (f : StringIO) (row : list PyVal) : Res StringIO :=
  if closed f
  then Raise (ValueError (lit "I/O operation on closed file"))
  else Ok (mkStringIO false (getvalue f ++ csv_line row)).

(** The state that [process_pst_folder] mutates: the list [emails] and
    the file under [csv_writer]. *)
Record Sinks : Type := mkSinks {
  emails : list EmailData;
  csv_data : StringIO
}.

(** A computation over the sinks that may raise. *)
Definition M (A : Type) : Type := Sinks -> Res A * Sinks.

Definition ret {A : Type} (a : A) : M A := fun s => (Ok a, s).

Definition bindM {A B : Type} (m : M A) (k : A -> M B) : M B :=
  fun s =>
    match m s with
    | (Ok a, s') => k a s'
    | (Raise e, s') => (Raise e, s')
    end.

(** A call that does not touch the sinks. *)
Definition call {A : Type} (r : Res A) : M A := fun s => (r, s).

(** [try: m  except Exception as e: h e] *)
Definition try_exceptM {A : Type} (m : M A) (h : exn -> M A) : M A :=
  fun s =>
    match m s with
    | (Ok a, s') => (Ok a, s')
    | (Raise e, s') => h e s'
    end.

(** [emails.append(email_data)] *)
Definition emails_append (email_data : EmailData) : M unit :=
  fun s => (Ok tt, mkSinks (emails s ++ [email_data]) (csv_data s)).

(** [csv_writer.writerow(row)] *)
Definition csv_writer_writerow (row : list PyVal) : M unit :=
  fun s =>
    match writerow (csv_data s) row with
    | Ok f => (Ok tt, mkSinks (emails s) f)
    | Raise e => (Raise e, s)
    end.

(** [for x in xs: body x] *)
Fixpoint for_each (xs : list Z) (body : Z -> M unit) : M unit :=
  match xs with
  | [] => ret tt
  | x :: xs' => bindM (body x) (fun _ => for_each xs' body)
  end.

Declare Scope m_scope.
Delimit Scope m_scope with M.
Notation "x <- m ;; k" := (bindM m (fun x => k))
  (at level 61, m at next level, right associativity) : m_scope.
Notation "m ;; k" := (bindM m (fun _ => k))
  (at level 61, right associativity) : m_scope.

(* ================================================================= *)
(** ** Reading the table back: [csv.reader]

    The reader of the [csv] module for the dialect that the writer uses
    (excel: delimiter [,], quote character the double quote, doubled
    quotes inside a quoted field, not strict). It is the parser that the
    written payload is read back with. *)

Inductive ParserState : Type :=
| START_RECORD
| START_FIELD
| IN_FIELD
| IN_QUOTED_FIELD
| QUOTE_IN_QUOTED_FIELD
| EAT_CRNL.

(** The reader between two characters: its state, the field under
    construction and the fields of the record so far. *)
Record Reader : Type := mkReader {
  state : ParserState;
  field : pystr;
  fields : list pystr
}.

Definition parse_reset : Reader := mkReader START_RECORD [] [].

Definition parse_save_field (st : ParserState) (r : Reader) : Reader :=
  mkReader st [] (fields r ++ [field r]).

(** The longest field that the reader takes, [csv.field_size_limit()]. *)
Definition field_limit : N := 131072.

(** A character for the field under construction: an error when the
    field has reached the limit. *)
Definition parse_add_char (st : ParserState) (c : N) (r : Reader)
  : option Reader :=
  if N.of_nat (List.length (field r)) <? field_limit
  then Some (mkReader st (field r ++ [c]) (fields r))
  else None.

(** A text that the reader takes as one field. *)
Definition fits_field (t : pystr) : bool :=
  N.of_nat (List.length t) <=? field_limit.

(** A row all of whose fields the reader takes. *)
Definition row_fits (row : list PyVal) : bool :=
  forallb (fun v => fits_field (csv_text v)) row.

Definition is_newline (c : N) : bool := (c =? 10) || (c =? 13).

(** One character; [None] as a character is the end of the line, [None]
    as a result the error of the reader. *)
Definition parse_process_char (r : Reader) (c : option N) : option Reader :=
  let start_field (r : Reader) :=
    match c with
    | None => Some (parse_save_field START_RECORD r)
    | Some ch =>
        if is_newline ch then Some (parse_save_field EAT_CRNL r)
        else if ch =? 34
             then Some (mkReader IN_QUOTED_FIELD (field r) (fields r))
        else if ch =? 44 then Some (parse_save_field START_FIELD r)
        else parse_add_char IN_FIELD ch r
    end in
  match state r with
  | START_RECORD =>
      match c with
      | None => Some r
      | Some ch =>
          if is_newline ch
          then Some (mkReader EAT_CRNL (field r) (fields r))
          else start_field r
      end
  | START_FIELD => start_field r
  | IN_FIELD =>
      match c with
      | None => Some (parse_save_field START_RECORD r)
      | Some ch =>
          if is_newline ch then Some (parse_save_field EAT_CRNL r)
          else if ch =? 44 then Some (parse_save_field START_FIELD r)
          else parse_add_char IN_FIELD ch r
      end
  | IN_QUOTED_FIELD =>
      match c with
      | None => Some r
      | Some ch =>
          if ch =? 34
          then Some (mkReader QUOTE_IN_QUOTED_FIELD (field r) (fields r))
          else parse_add_char IN_QUOTED_FIELD ch r
      end
  | QUOTE_IN_QUOTED_FIELD =>
      match c with
      | None => Some (parse_save_field START_RECORD r)
      | Some ch =>
          if ch =? 34 then parse_add_char IN_QUOTED_FIELD ch r
          else if ch =? 44 then Some (parse_save_field START_FIELD r)
          else if is_newline ch then Some (parse_save_field EAT_CRNL r)
          else parse_add_char IN_FIELD ch r
      end
  | EAT_CRNL =>
      match c with
      | None => Some (mkReader START_RECORD (field r) (fields r))
      | Some ch => if is_newline ch then Some r else None
      end
  end.

(** The reader over a text. A line of the text ends after its line
    feed; the reader is given the characters of the line, then the end
    of the line, and the record is complete when that leaves it at the
    start of a record. [rows] are the complete records so far. *)
Fixpoint read_text (r : Reader) (rows : list (list pystr)) (text : pystr)
  : option (list (list pystr)) :=
  match text with
  | [] =>
      match state r, field r, fields r with
      | START_RECORD, [], [] => Some rows
      | IN_QUOTED_FIELD, _, _ => Some (rows ++ [fields r ++ [field r]])
      | _, _, _ =>
          match parse_process_char r None with
          | Some r' => Some (rows ++ [fields r'])
          | None => None
          end
      end
  | c :: text' =>
      match parse_process_char r (Some c) with
      | None => None
      | Some r1 =>
          if c =? 10 then
            match parse_process_char r1 None with
            | None => None
            | Some r2 =>
                match state r2 with
                | START_RECORD =>
                    read_text parse_reset (rows ++ [fields r2]) text'
                | _ => read_text r2 rows text'
                end
            end
          else read_text r1 rows text'
      end
  end.

(** [list(csv.reader(io.StringIO(text)))] *)
Definition csv_reader (text : pystr) : option (list (list pystr)) :=
  read_text parse_reset [] text.

(* ================================================================= *)
(** ** The request and its surroundings *)

(** The uploaded file of the request. *)
Record FileStorage : Type := mkFileStorage {
  filename : pystr;
  size : Z;
  save : Res unit
}.

(** The [pypff.file] of the upload. *)
Record PstFile : Type := mkPstFile {
  pst_open : Res unit;
  get_root_folder : Res Folder;
  pst_close : Res unit
}.

(** What writing the CSV file (lines 191-192) comes to: the file holds
    the payload; or [open] raises and there is no file; or the write
    raises after [open] has made the file, which stays with what was
    written of it. *)
Inductive Written : Type :=
| FileWritten
| NotOpened (e : exn)
| WriteFailed (e : exn) (partial : pystr).

(** What a request meets: the uploaded file if there is one, the bytes
    of the body of the request besides the file, the two time stamps of
    the file names, the archive, the outcome of writing a file under a
    path, the outcome of lines 213-215, which remove the saved upload if
    it is there, and the number of nested calls of [process_pst_folder]
    that the recursion limit of the interpreter leaves room for under
    the call of line 182. *)
Record Env : Type := mkEnv {
  request_file : option FileStorage;
  form_overhead : N;
  now_upload : pystr;
  now_export : pystr;
  pst : PstFile;
  write_file : pystr -> pystr -> Written;
  remove_temp : Res unit;
  recursion_room : nat
}.

(** The length of the body of the request: the file is part of it. *)
Definition content_length (env : Env) : Z :=
  (match request_file env with
   | Some file => size file
   | None => 0
   end + Z.of_N (form_overhead env))%Z.

(** The body of a response: the JSON of an error or of the records, or
    the error page of the framework, which is no JSON. *)
Inductive Json : Type :=
| JError (error : pystr)
| JEmails (emails : list EmailData) (csv_url : pystr)
| NotJson.

(** A response with its status, and the CSV file that the request left
    under [uploads/], if any. *)
Record Response : Type := mkResponse {
  json : Json;
  status : Z;
  csv_file : option (pystr * pystr)
}.

Definition MAX_FILE_SIZE : Z := 100 * 1024 * 1024.

(** [app.config['MAX_CONTENT_LENGTH']] of line 28. *)
Definition MAX_CONTENT_LENGTH : Z := 105 * 1024 * 1024.

(** Lines 43-48: the answer to a body over [MAX_CONTENT_LENGTH], which
    the framework refuses when [request.files] is read. *)
Definition request_entity_too_large : Response :=
  mkResponse
    (JError (lit "File too large. Maximum allowed size is 100.0MB"))
    413 None.

Definition UPLOAD_FOLDER : pystr := lit "uploads".

(** The header row of line 180. *)
Definition header_row : list PyVal :=
  map (fun s => VStr (lit s))
      ["From"; "To"; "Subject"; "Body"; "Date"; "Attachments"]%string.

(* ================================================================= *)
(** ** Archives to run the extraction on *)

(** The getter by index of a list of outcomes: [IndexError] outside. *)
Definition items {A : Type} (l : list (Res A)) (i : Z) : Res A :=
  if (i <? 0)%Z then Raise (IndexError (lit "invalid index"))
  else match nth_error l (Z.to_nat i) with
       | Some r => r
       | None => Raise (IndexError (lit "invalid index"))
       end.

(** A folder that holds the listed messages and sub-folders. *)
Definition folder_of (messages : list (Res Message))
    (sub_folders : list (Res Folder)) : Folder :=
  mkFolder (Ok (Z.of_nat (List.length messages))) (items messages)
           (Ok (Z.of_nat (List.length sub_folders))) (items sub_folders).

(** A message without attachments, all of whose fields can be read. *)
Definition plain_message (sender subject body : string) (time : PyVal)
    (headers : pystr) : Message :=
  mkMessage (Ok (VStr (lit sender))) (Ok (VStr (lit subject)))
            (Ok (VStr (lit body))) (Ok time) (Ok (VStr headers))
            (Ok 0%Z) (items []).

(** A message whose sender cannot be read. *)
Definition broken_message : Message :=
  mkMessage (Raise (OSError (lit "unable to retrieve sender name")))
            (Ok VNone) (Ok VNone) (Ok VNone) (Ok VNone) (Ok 0%Z) (items []).

(** The header blob of the specification, and one with two [to:] lines. *)
Definition example_headers : pystr :=
  lit "From: a" ++ [10] ++ lit "To:  b@example.com " ++ [10]
  ++ lit "Cc: c" ++ [10].

Definition two_to_headers : pystr :=
  lit "Subject: x" ++ [10] ++ lit "TO: first@example.com" ++ [13; 10]
  ++ lit "to: second@example.com".

(** A message with four attachment slots: a long name, a short name
    only, no name at all, and a slot that cannot be read. *)
Definition message_with_attachments : Message :=
  mkMessage (Ok (VStr (lit "carol"))) (Ok (VStr (lit "files")))
            (Ok (VBytes [x68; x69]%byte)) (Ok VNone) (Ok VNone)
            (Ok 4%Z)
            (items [Ok (mkAttachment (Ok (VStr (lit "report.pdf")))
                                     (Ok (VStr (lit "REPORT~1.PDF"))));
                    Ok (mkAttachment (Ok VNone) (Ok (VStr (lit "A.TXT"))));
                    Ok (mkAttachment (Ok (VStr [])) (Ok VNone));
                    Raise (OSError (lit "unable to retrieve attachment"))]).

(** A message with a delivery time, and one without. *)
Definition dated_message : Message :=
  plain_message "bob" "minutes" "see the file"
                (VDatetime (mkDatetime 2024 1 2 3 4 5 0)) [].

Definition undated_message : Message :=
  plain_message "alice" "hello" "one, two" VNone example_headers.


Definition one_message_folder : Folder :=
  folder_of [Ok dated_message] [].

(** A folder whose message count cannot be read. *)
Definition unreadable_folder : Folder :=
  mkFolder (Raise (OSError (lit "unable to retrieve number of sub messages")))
           (items [Ok dated_message]) (Ok 0%Z) (items []).

(** A folder with one message whose sub-folder count cannot be read. *)
Definition half_read_folder : Folder :=
  mkFolder (Ok 1%Z) (items [Ok dated_message])
           (Raise (OSError (lit "unable to retrieve number of sub folders")))
           (items []).

(** A folder whose second sub-folder out of three cannot be retrieved. *)
Definition lost_sub_folder_tree : Folder :=
  folder_of [Ok undated_message]
            [Ok one_message_folder;
             Raise (OSError (lit "unable to retrieve sub folder"));
             Ok one_message_folder].

(** A folder whose sub-folders fail in two ways, and one that does not. *)
Definition family_tree : Folder :=
  folder_of [] [Ok unreadable_folder; Ok half_read_folder;
                Ok one_message_folder].

(** A tree of folders without any message. *)
Definition empty_tree : Folder :=
  folder_of [] [Ok (folder_of [] []); Ok (folder_of [] [Ok (folder_of [] [])])].

(** A chain of [depth] folders under one another, with one message in
    the last one; a chain of 1500, and the recursion limit of the
    interpreter, [sys.getrecursionlimit()]: no walk has more room. *)
Fixpoint chain (depth : nat) : Folder :=
  match depth with
  | O => one_message_folder
  | S depth' => folder_of [] [Ok (chain depth')]
  end.

Definition deep_chain : Folder := chain 1500.

Definition recursion_limit : nat := 1000.

(** A tree with messages on three levels: two in the root folder, with
    one between them that cannot be built, one in its first sub-folder
    and one in the sub-folder of that, and one in its second
    sub-folder. *)
Definition note (sender : string) : Message :=
  plain_message sender "note" "text" VNone [].

Definition ordered_tree : Folder :=
  folder_of [Ok (note "root 0"); Ok broken_message; Ok (note "root 2")]
            [Ok (folder_of [Ok (note "first 0")]
                           [Ok (folder_of [Ok (note "first first 0")] [])]);
             Ok (folder_of [Ok (note "second 0")] [])].

(** A request with an upload that passes the checks, for the archive
    whose root folder is [root]. *)
Definition upload : FileStorage :=
  mkFileStorage (lit "mail.pst") 4096%Z (Ok tt).

Definition env_of (archive : PstFile) : Env :=
  mkEnv (Some upload) 200 (lit "20240102_030405") (lit "20240102_030406")
        archive (fun _ _ => FileWritten) (Ok tt) 990.

Definition archive_of (root : Folder) : PstFile :=
  mkPstFile (Ok tt) (Ok root) (Ok tt).

(** An archive that cannot be opened. *)
Definition broken_archive : PstFile :=
  mkPstFile (Raise (OSError (lit "unable to open file")))
            (Ok empty_tree) (Ok tt).

(** A [csv.writer] over a file that was closed. *)
Definition closed_file : StringIO := mkStringIO true [].

(** No folder of the tree has a message. *)
Inductive no_messages : Folder -> Prop :=
| no_messages_intro (folder : Folder) :
    get_number_of_sub_messages folder = Ok 0%Z ->
    (forall i sub_folder, get_sub_folder folder i = Ok sub_folder ->
                          no_messages sub_folder) ->
    no_messages folder.

(** The upload passes the checks of lines 143-163. *)
Definition accepted (file : FileStorage) : Prop :=
  truthy (VStr (filename file)) = true
  /\ endswith (filename file) (lit ".pst") = true
  /\ (size file <= MAX_FILE_SIZE)%Z.

(** A case table that leaves the code points outside ASCII as they are:
    enough to run the extraction on archives of ASCII text. *)
Definition no_case_table (before : pystr) (c : N) (after : pystr) : pystr :=
  [c].

(** The indices up to the first one whose item cannot be retrieved. *)
Fixpoint readable_prefix {A : Type} (get : Z -> Res A) (indices : list Z)
  : list Z :=
  match indices with
  | [] => []
  | i :: rest =>
      match get i with
      | Ok _ => i :: readable_prefix get rest
      | Raise _ => []
      end
  end.



(** The lower case of an ASCII code point. *)
Definition ascii_lower (c : N) : N :=
  if (65 <=? c) && (c <=? 90) then c + 32 else c.

(** Whether a call raised. *)
Definition raised {A : Type} (r : Res A) : bool :=
  match r with
  | Ok _ => false
  | Raise _ => true
  end.

(** A message whose sender, subject, body, delivery time and transport
    headers can all be read. *)
Definition readable (message : Message) : bool :=
  negb (raised (get_sender_name message)
        || raised (get_subject message)
        || raised (get_plain_text_body message)
        || raised (get_delivery_time message)
        || raised (get_transport_headers message)).

(** Message [i] of the folder can be retrieved and read. *)
Definition readable_at (folder : Folder) (i : Z) : bool :=
  match get_sub_message folder i with
  | Ok message => readable message
  | Raise _ => false
  end.

(** The name, the path and the URL of the CSV file of a request (lines
    189, 190 and 199). *)
Definition csv_filename (env : Env) : pystr :=
  lit "extracted_emails_" ++ now_export env ++ lit ".csv".

Definition csv_path (env : Env) : pystr :=
  UPLOAD_FOLDER ++ lit "/" ++ csv_filename env.

Definition csv_url_of (env : Env) : pystr :=
  lit "/download/" ++ csv_filename env.

(* ================================================================= *)
(** ** [download_file] *)

(** [os.path.join(a, b)] of [posixpath]: an absolute [b] alone; else [b]
    after [a], with a slash between them unless [a] is empty or ends
    with one. *)
Definition os_path_join (a b : pystr) : pystr :=
  if startswith b (lit "/") then b
  else if match a with [] => true | _ => false end || endswith a (lit "/")
       then a ++ b
  else a ++ lit "/" ++ b.

(** What [download_file] meets: whether a path exists, and what
    [send_file] makes of a path, the content of the file or an
    exception. *)
Record Disk : Type := mkDisk {
  os_path_exists : pystr -> bool;
  send_file : pystr -> Res pystr
}.

(** An answer of [download_file]: the file as an attachment, or an
    error text with its status. *)
Inductive Download : Type :=
| Sent (content : pystr)
| NotSent (error : pystr) (code : Z).

(** Lines 218-228. *)
Definition download_file (disk : Disk) (name : pystr) : Download :=
  let file_path := os_path_join UPLOAD_FOLDER name in
  if negb (os_path_exists disk file_path)
  then NotSent (lit "File not found") 404
  else match send_file disk file_path with
       | Ok content => Sent content
       | Raise e => NotSent (exn_str e) 500
       end.

(** The rule [/download/<filename>] of line 217: the text after
    [/download/], when it is not empty and holds no slash. *)
Definition route_download (url : pystr) : option pystr :=
  if startswith url (lit "/download/")
  then match skipn 10 url with
       | [] => None
       | name => if existsb (N.eqb 47) name then None else Some name
       end
  else None.

(** A disk that holds one file, and an upload and two archives to meet
    the answers of [analyze_pst] that are errors. *)
Definition disk_with (path content : pystr) : Disk :=
  mkDisk (str_eqb path)
         (fun p => if str_eqb path p then Ok content
                   else Raise (OSError (lit "No such file or directory"))).

Definition text_upload : FileStorage :=
  mkFileStorage (lit "notes.txt") 4096%Z (Ok tt).

Definition env_with (file : FileStorage) (archive : PstFile) : Env :=
  mkEnv (Some file) 200 (lit "20240102_030405") (lit "20240102_030406")
        archive (fun _ _ => FileWritten) (Ok tt) 990.

Definition unclosed_archive : PstFile :=
  mkPstFile (Ok tt) (Ok one_message_folder)
            (Raise (OSError (lit "unable to close file"))).

(** A request whose body is over the limit of the framework, one whose
    CSV file is opened and then not written in full, and one whose saved
    upload cannot be removed. *)
Definition oversized_text_upload : FileStorage :=
  mkFileStorage (lit "notes.txt") 111149056%Z (Ok tt).

Definition env_full_disk (archive : PstFile) : Env :=
  mkEnv (Some upload) 200 (lit "20240102_030405") (lit "20240102_030406")
        archive
        (fun _ payload =>
           WriteFailed (OSError (lit "[Errno 28] No space left on device"))
                       (firstn 10 payload))
        (Ok tt) 990.

Definition env_locked_upload (archive : PstFile) : Env :=
  mkEnv (Some upload) 200 (lit "20240102_030405") (lit "20240102_030406")
        archive (fun _ _ => FileWritten)
        (Raise (OSError (lit "[Errno 13] Permission denied")))
        990.

(** A disk on which the path exists where [os.path.exists] looks, and
    not where [send_file] does. *)
Definition disk_elsewhere : Disk :=
  mkDisk (fun _ => true)
         (fun _ => Raise (OSError (lit "[Errno 2] No such file or directory"))).

Section Extraction.

(** The case tables of the Unicode database are not part of the
    repository. What [str.lower()] makes of a code point outside ASCII
    is the parameter [unicode_lower]; it receives the code points before
    and after it too, since the lower case of a capital sigma depends on
    them. *)
Variable unicode_lower : pystr -> N -> pystr -> pystr.

Definition lower_char (before : pystr) (c : N) (after : pystr) : pystr :=
  if c <? 128 then [ascii_lower c] else unicode_lower before c after.

Fixpoint lower_from (before s : pystr) : pystr :=
  match s with
  | [] => []
  | c :: s' => lower_char before c s' ++ lower_from (before ++ [c]) s'
  end.

(** [s.lower()] *)
Definition lower (s : pystr) : pystr := lower_from [] s.

(** [line.lower().startswith('to:')] *)
Definition is_to_line (line : pystr) : bool :=
  startswith (lower line) (lit "to:").

(** Lines 80-83: the loop over the lines, left at the first match. *)
Fixpoint scan_lines (lines : list pystr) : pystr :=
  match lines with
  | [] => []
  | line :: rest =>
      if is_to_line line then strip (skipn 3 line) else scan_lines rest
  end.

(** Lines 78-83: the recipient out of the transport headers. *)
Definition extract_to (headers : pystr) : pystr :=
  if truthy (VStr headers) then scan_lines (split 10 headers) else [].

(** Lines 90-95: one attachment slot. [attachments] is the list so far;
    the result is the list after the slot. *)
Definition attachment_slot (message : Message) (attachments : list pystr)
    (j : Z) : Res (list pystr) :=
  (attachment <- get_attachment message j ;;
   name <- get_long_filename attachment ;;
   name <- (if negb (truthy name)
            then get_short_filename attachment
            else Ok name) ;;
   if truthy name
   then (text <- decode_if_bytes name ;; Ok (attachments ++ [text]))
   else Ok attachments)%res.

(** Lines 85-100. An exception in a slot leaves the list as it was
    before the slot; the count is read before anything is appended, so an
    exception there leaves the list empty. *)
Definition read_attachments (message : Message) : Res (list pystr) :=
  try_except
    (attachment_count <- get_number_of_attachments message ;;
     for_fold
       (fun attachments j =>
          try_except (attachment_slot message attachments j)
                     any_exception (fun _ => Ok attachments))
       (range attachment_count) [])%res
    any_exception (fun _ => Ok []).

(** Lines 70-109 and the row of lines 112-119: the dict [email_data] and
    the row, built from message [i] of the folder. *)
Definition build_email_data (folder : Folder) (i : Z)
  : Res (EmailData * list PyVal) :=
  (message <- get_sub_message folder i ;;
   sender <- bindR (get_sender_name message) decode_if_bytes ;;
   subject <- bindR (get_subject message) decode_if_bytes ;;
   body <- bindR (get_plain_text_body message) decode_if_bytes ;;
   delivery_time <- get_delivery_time message ;;
   headers <- bindR (get_transport_headers message) decode_if_bytes ;;
   let to := extract_to headers in
   attachments <- read_attachments message ;;
   Ok (mkEmailData sender to subject body (py_str delivery_time)
                   attachments,
       [VStr sender; VStr to; VStr subject; VStr body; delivery_time;
        VStr (join (lit ", ") attachments)]))%res.

(** The dict and the row of a message whose fields were read. *)
Definition built_of (message : Message)
    (sender subject body delivery_time headers : PyVal)
  : EmailData * list PyVal :=
  let attachments :=
    match read_attachments message with
    | Ok names => names
    | Raise _ => []
    end in
  (mkEmailData (decoded sender) (extract_to (decoded headers))
               (decoded subject) (decoded body) (py_str delivery_time)
               attachments,
   [VStr (decoded sender); VStr (extract_to (decoded headers));
    VStr (decoded subject); VStr (decoded body); delivery_time;
    VStr (join (lit ", ") attachments)]).

(** Lines 70-119: the body of the [try] of one message. *)
Definition process_message (folder : Folder) (i : Z) : M unit :=
  (built <- call (build_email_data folder i) ;;
   emails_append (fst built) ;;
   csv_writer_writerow (snd built))%M.

(** Lines 69-123: one turn of the loop over the messages; whatever the
    message raises is caught, and the loop goes on. *)
Definition message_iteration (folder : Folder) (i : Z) : M unit :=
  try_exceptM (process_message folder i) (fun _ => ret tt).

(** Lines 68-123: the loop over the messages. *)
Definition message_loop (folder : Folder) (message_count : Z) : M unit :=
  for_each (range message_count) (message_iteration folder).

(** Lines 62-130. [room] is the number of nested calls of
    [process_pst_folder] that the recursion limit of the interpreter
    leaves room for under the call at hand: with no room left the call
    of line 127 raises [RecursionError], inside the [try] of the
    caller. *)
Fixpoint process_pst_folder (room : nat) (folder : Folder) {struct room}
  : M unit :=
  try_exceptM
    (message_count <- call (get_number_of_sub_messages folder) ;;
     message_loop folder message_count ;;
     sub_folder_count <- call (get_number_of_sub_folders folder) ;;
     for_each (range sub_folder_count) (fun i =>
       sub_folder <- call (get_sub_folder folder i) ;;
       match room with
       | O => call (Raise RecursionError)
       | S room' => process_pst_folder room' sub_folder
       end))%M
    (fun _ => ret tt).

(** The entry of one attachment slot in the words of the specification:
    the long file name if it is there and not empty, else the short one
    if it is there and not empty, else no entry; and no entry when
    reading the slot fails. An entry is the name as text. *)
Definition name_entry (name : PyVal) : list pystr :=
  match decode_if_bytes name with
  | Ok text => [text]
  | Raise _ => []
  end.

Definition slot_entry (slot : Res Attachment) : list pystr :=
  match slot with
  | Raise _ => []
  | Ok attachment =>
      match get_long_filename attachment with
      | Raise _ => []
      | Ok long =>
          if truthy long then name_entry long
          else match get_short_filename attachment with
               | Raise _ => []
               | Ok short => if truthy short then name_entry short else []
               end
      end
  end.

(** The names of a message, slot by slot. *)
Definition attachment_names (message : Message) : list pystr :=
  match get_number_of_attachments message with
  | Ok attachment_count =>
      flat_map (fun j => slot_entry (get_attachment message j))
               (range attachment_count)
  | Raise _ => []
  end.

(** The records of a folder tree in the order of the specification:
    the messages of the folder by index, then the sub-folders by index,
    each one the same way. A message that cannot be built has no record;
    a folder whose count cannot be read stops there, and so does the walk
    of the sub-folders at one that cannot be retrieved. *)
Definition message_record (folder : Folder) (i : Z) : list EmailData :=
  match build_email_data folder i with
  | Ok built => [fst built]
  | Raise _ => []
  end.

Fixpoint dfs_records (folder : Folder) : list EmailData :=
  match get_number_of_sub_messages folder with
  | Raise _ => []
  | Ok message_count =>
      flat_map (message_record folder) (range message_count)
      ++ match get_number_of_sub_folders folder with
         | Raise _ => []
         | Ok sub_folder_count =>
             (fix walk (indices : list Z) : list EmailData :=
                match indices with
                | [] => []
                | i :: rest =>
                    match get_sub_folder folder i with
                    | Ok sub_folder => dfs_records sub_folder ++ walk rest
                    | Raise _ => []
                    end
                end) (range sub_folder_count)
         end
  end.

(** The walk over the sub-folders inside [dfs_records]. *)
Fixpoint walk_records (folder : Folder) (indices : list Z)
  : list EmailData :=
  match indices with
  | [] => []
  | i :: rest =>
      match get_sub_folder folder i with
      | Ok sub_folder => dfs_records sub_folder ++ walk_records folder rest
      | Raise _ => []
      end
  end.

(** The records of sub-folder [i], none if it cannot be retrieved. *)
Definition sub_records (folder : Folder) (i : Z) : list EmailData :=
  match get_sub_folder folder i with
  | Ok sub_folder => dfs_records sub_folder
  | Raise _ => []
  end.

(** What the walk hands to the two sinks, in the order of
    [dfs_records]: for each message that is built, its dict and its
    row. *)
Definition message_built (folder : Folder) (i : Z)
  : list (EmailData * list PyVal) :=
  match build_email_data folder i with
  | Ok built => [built]
  | Raise _ => []
  end.

(** What a walk with [room] hands to the two sinks: the built messages
    of the folder by index, then, when there is room for a call, those
    of its sub-folders by index up to the first one that cannot be
    retrieved, each one with the room that is left. *)
Fixpoint built_within (room : nat) (folder : Folder) {struct room}
  : list (EmailData * list PyVal) :=
  match get_number_of_sub_messages folder with
  | Raise _ => []
  | Ok message_count =>
      flat_map (message_built folder) (range message_count)
      ++ match get_number_of_sub_folders folder, room with
         | Ok sub_folder_count, S room' =>
             flat_map (fun i =>
                         match get_sub_folder folder i with
                         | Ok sub_folder => built_within room' sub_folder
                         | Raise _ => []
                         end)
                      (readable_prefix (get_sub_folder folder)
                                       (range sub_folder_count))
         | _, _ => []
         end
  end.

(** The records among them. *)
Definition records_within (room : nat) (folder : Folder) : list EmailData :=
  map fst (built_within room folder).

(** What sub-folder [i] contributes to a walk that has [room] for it. *)
Definition sub_built (room : nat) (folder : Folder) (i : Z)
  : list (EmailData * list PyVal) :=
  match get_sub_folder folder i with
  | Ok sub_folder => built_within room sub_folder
  | Raise _ => []
  end.

Definition sub_records_within (room : nat) (folder : Folder) (i : Z)
  : list EmailData :=
  map fst (sub_built room folder i).

(** The walk of the folder makes no call that the recursion limit
    refuses: there is room for every sub-folder that it comes to. *)
Fixpoint fits (room : nat) (folder : Folder) {struct room} : bool :=
  match get_number_of_sub_messages folder,
        get_number_of_sub_folders folder with
  | Ok _, Ok sub_folder_count =>
      forallb (fun i =>
                 match get_sub_folder folder i, room with
                 | Ok sub_folder, S room' => fits room' sub_folder
                 | Ok _, O => false
                 | Raise _, _ => true
                 end)
              (readable_prefix (get_sub_folder folder)
                               (range sub_folder_count))
  | _, _ => true
  end.

(** The lines that the writer writes for the rows of a list of built
    messages. *)
Definition table_lines (built : list (EmailData * list PyVal)) : pystr :=
  flat_map (fun b => csv_line (snd b)) built.

(** The row of a record in the words of the specification: its fields
    in the order of the header row, the attachment names joined. *)
Definition record_row (email : EmailData) : list pystr :=
  [email_from email; email_to email; email_subject email; email_body email;
   email_date email; join (lit ", ") (email_attachments email)].

(** What line 192 writes after a walk with [room] from [root]: the
    header line and the lines of the built messages. *)
Definition csv_payload (room : nat) (root : Folder) : pystr :=
  csv_line header_row ++ table_lines (built_within room root).

(** The request comes to the walk: its body is within the limit of the
    framework, the upload passes the checks and is saved, the archive is
    opened, walked from [root] and closed. *)
Definition walks (env : Env) (file : FileStorage) (root : Folder) : Prop :=
  (content_length env <= MAX_CONTENT_LENGTH)%Z
  /\ request_file env = Some file
  /\ accepted file
  /\ save file = Ok tt
  /\ pst_open (pst env) = Ok tt
  /\ get_root_folder (pst env) = Ok root
  /\ pst_close (pst env) = Ok tt.

(** The request goes through every stage: it comes to the walk, there
    are records, the file is written and the saved upload removed. *)
Definition goes_through (env : Env) (file : FileStorage) (root : Folder)
  : Prop :=
  walks env file root
  /\ records_within (recursion_room env) root <> []
  /\ write_file env (csv_path env) (csv_payload (recursion_room env) root)
     = FileWritten
  /\ remove_temp env = Ok tt.

(** The request fails with [e]: the first of its stages that raises,
    in the order of lines 170-192, raises [e]. The file is written only
    when there are records. *)
Definition fails_with (env : Env) (file : FileStorage) (e : exn) : Prop :=
  save file = Raise e
  \/ (save file = Ok tt
      /\ (pst_open (pst env) = Raise e
          \/ (pst_open (pst env) = Ok tt
              /\ (get_root_folder (pst env) = Raise e
                  \/ exists root,
                       get_root_folder (pst env) = Ok root
                       /\ (pst_close (pst env) = Raise e
                           \/ (pst_close (pst env) = Ok tt
                               /\ records_within (recursion_room env) root
                                  <> []
                               /\ (write_file env (csv_path env)
                                     (csv_payload (recursion_room env) root)
                                   = NotOpened e
                                   \/ exists partial,
                                        write_file env (csv_path env)
                                          (csv_payload (recursion_room env)
                                                       root)
                                        = WriteFailed e partial))))))).

(** The answer of the [try] of lines 166-210 and its [except], stage
    by stage, the walk replaced by what it leaves in the sinks. *)
Definition staged_answer (env : Env) (file : FileStorage) : Response :=
  let failed (e : exn) := mkResponse (JError (exn_str e)) 500 None in
  match save file with
  | Raise e => failed e
  | Ok _ =>
      match pst_open (pst env) with
      | Raise e => failed e
      | Ok _ =>
          match get_root_folder (pst env) with
          | Raise e => failed e
          | Ok root =>
              match pst_close (pst env) with
              | Raise e => failed e
              | Ok _ =>
                  match records_within (recursion_room env) root with
                  | [] =>
                      mkResponse
                        (JError (lit "No emails found in PST file"))
                        400 None
                  | _ :: _ =>
                      match write_file env (csv_path env)
                              (csv_payload (recursion_room env) root) with
                      | NotOpened e => failed e
                      | WriteFailed e partial =>
                          mkResponse (JError (exn_str e)) 500
                                     (Some (csv_path env, partial))
                      | FileWritten =>
                          mkResponse
                            (JEmails
                               (records_within (recursion_room env) root)
                               (csv_url_of env))
                            200
                            (Some (csv_path env,
                                   csv_payload (recursion_room env) root))
                      end
                  end
              end
          end
      end
  end.

(** Lines 126-127: one turn of the loop over the sub-folders. *)
Definition sub_folder_iteration (room : nat) (folder : Folder) (i : Z)
  : M unit :=
  (sub_folder <- call (get_sub_folder folder i) ;;
   match room with
   | O => call (Raise RecursionError)
   | S room' => process_pst_folder room' sub_folder
   end)%M.

(** Lines 65-127: the body of the [try] of [process_pst_folder]. *)
Definition folder_body (room : nat) (folder : Folder) : M unit :=
  (message_count <- call (get_number_of_sub_messages folder) ;;
   message_loop folder message_count ;;
   sub_folder_count <- call (get_number_of_sub_folders folder) ;;
   for_each (range sub_folder_count) (sub_folder_iteration room folder))%M.

(** Lines 165-215 of [analyze_pst], after the checks of the upload. The
    answer of the [try] and its [except] is that of the request unless
    the [finally] raises, which leaves the answer to the framework. The
    test of lines 196-205 never fails on records of strings. *)
Definition extract (env : Env) (file : FileStorage) : Response :=
  let failed (e : exn) := mkResponse (JError (exn_str e)) 500 None in
  let answer :=
    match (save file ;; pst_open (pst env) ;;
           root <- get_root_folder (pst env) ;;
           table <- writerow (mkStringIO false []) header_row ;;
           Ok (root, table))%res with
    | Raise e => failed e
    | Ok (root, table) =>
        match process_pst_folder (recursion_room env) root
                                 (mkSinks [] table) with
        | (Raise e, _) => failed e
        | (Ok _, sinks) =>
            match pst_close (pst env) with
            | Raise e => failed e
            | Ok _ =>
                if Nat.eqb (List.length (emails sinks)) 0
                then mkResponse
                       (JError (lit "No emails found in PST file")) 400 None
                else
                  let csv_filename :=
                    lit "extracted_emails_" ++ now_export env
                    ++ lit ".csv" in
                  let csv_path := UPLOAD_FOLDER ++ lit "/" ++ csv_filename in
                  let payload := getvalue (csv_data sinks) in
                  match write_file env csv_path payload with
                  | NotOpened e => failed e
                  | WriteFailed e partial =>
                      mkResponse (JError (exn_str e)) 500
                                 (Some (csv_path, partial))
                  | FileWritten =>
                      mkResponse
                        (JEmails (emails sinks)
                                 (lit "/download/" ++ csv_filename))
                        200 (Some (csv_path, payload))
                  end
            end
        end
    end in
  match remove_temp env with
  | Ok _ => answer
  | Raise _ => mkResponse NotJson 500 (csv_file answer)
  end.

(** Lines 137-215. Reading [request.files] in line 143 raises when the
    body is over [MAX_CONTENT_LENGTH], which the handler of lines 43-48
    answers. *)
Definition analyze_pst (env : Env) : Response :=
  if (MAX_CONTENT_LENGTH <? content_length env)%Z
  then request_entity_too_large
  else
    match request_file env with
    | None => mkResponse (JError (lit "No file part")) 400 None
    | Some file =>
        if negb (truthy (VStr (filename file)))
        then mkResponse (JError (lit "No selected file")) 400 None
        else if negb (endswith (filename file) (lit ".pst"))
        then mkResponse (JError (lit "Invalid file type")) 400 None
        else if (MAX_FILE_SIZE <? size file)%Z
        then mkResponse
               (JError
                  (lit "File size exceeds maximum allowed size of 100.0MB"))
               413 None
        else extract env file
    end.

(* ================================================================= *)
(** * Properties *)

(* ----------------------------------------------------------------- *)
(** ** The field normaliser *)

Lemma decode_latin1_ok (b : list byte) :
  decode_latin1 b = Ok (map Byte.to_N b).
Proof. reflexivity. Qed.

Lemma decode_if_bytes_decoded (value : PyVal) :
  decode_if_bytes value = Ok (decoded value).
Proof.
  destruct value as [| s | b | d]; try reflexivity.
  unfold decode_if_bytes, decode_utf8, decoded.
  destruct (utf8_decode (map Byte.to_N b)); reflexivity.
Qed.

Lemma utf8_decode_nonempty (bs : list N) (s : pystr) :
  bs <> [] -> utf8_decode bs = Some s -> s <> [].
Proof.
  intros Hbs H. destruct bs as [| b0 r0]; [congruence |].
  cbn [utf8_decode] in H.
  repeat match type of H with
         | (if ?c then _ else _) = Some _ => destruct c
         | match ?l with [] => _ | _ :: _ => _ end = Some _ => destruct l
         | option_map _ ?o = Some _ => destruct o; cbn [option_map] in H
         end; try discriminate H; injection H as <-; discriminate.
Qed.

Lemma datetime_str_nonempty (d : datetime) : datetime_str d <> [].
Proof.
  unfold datetime_str. intros H.
  apply app_eq_nil in H as [_ H]. discriminate H.
Qed.

(** A value that counts as true has a text that is not empty. *)
Lemma decoded_nonempty (value : PyVal) :
  truthy value = true -> decoded value <> [].
Proof.
  destruct value as [| s | b | d]; simpl.
  - discriminate.
  - destruct s; [discriminate | intros _; discriminate].
  - destruct b as [| b0 b]; [discriminate | intros _].
    destruct (utf8_decode (map Byte.to_N (b0 :: b))) eqn:E.
    + refine (utf8_decode_nonempty _ _ _ E). discriminate.
    + discriminate.
  - intros _. apply datetime_str_nonempty.
Qed.

(** C6. [decode_if_bytes] never raises: on every value it returns a
    string, which is empty for [None], the string itself for a string,
    and for bytes the UTF-8 decoding when that is valid, else the
    Latin-1 decoding, else the textual form of the bytes; the Latin-1
    decoding never fails, so the last tier is never reached. *)
Theorem decode_if_bytes_total (value : PyVal) :
  decode_if_bytes value
  = Ok (match value with
        | VNone => []
        | VStr s => s
        | VBytes b =>
            match decode_utf8 b with
            | Ok text => text
            | Raise _ =>
                match decode_latin1 b with
                | Ok text => text
                | Raise _ => bytes_repr b
                end
            end
        | VDatetime d => datetime_str d
        end)
  /\ (forall b : list byte, decode_latin1 b = Ok (map Byte.to_N b)).
Proof.
  split; [| exact decode_latin1_ok].
  rewrite decode_if_bytes_decoded. f_equal.
  destruct value as [| s | b | d]; try reflexivity.
  unfold decoded, decode_utf8.
  destruct (utf8_decode (map Byte.to_N b)); reflexivity.
Qed.

(** The three tiers of the decoder on the e-acute: as UTF-8, as a lone
    Latin-1 byte, and an ASCII string. *)
Example decode_examples :
  decode_if_bytes (VBytes [xc3; xa9]%byte) = Ok [233]
  /\ decode_if_bytes (VBytes [xe9]%byte) = Ok [233]
  /\ decode_if_bytes (VBytes [x68; x69]%byte) = Ok (lit "hi").
Proof. split; [| split]; reflexivity. Qed.

(* ----------------------------------------------------------------- *)
(** ** The decoders *)

(** The tests of the decoder as propositions. *)
Ltac tests_to_props :=
  unfold in_range, is_cont, is_scalar in *;
  repeat match goal with
         | H : (_ && _) = true |- _ => apply andb_prop in H as [? ?]
         | H : negb _ = true |- _ => apply negb_true_iff in H
         | H : (_ && _) = false |- _ => apply andb_false_iff in H
         | H : (_ <? _) = true |- _ => apply N.ltb_lt in H
         | H : (_ <? _) = false |- _ => apply N.ltb_ge in H
         | H : (_ <=? _) = true |- _ => apply N.leb_le in H
         | H : (_ <=? _) = false |- _ => apply N.leb_gt in H
         | H : (_ =? _) = true |- _ => apply N.eqb_eq in H
         | H : (_ =? _) = false |- _ => apply N.eqb_neq in H
         end.

(** Linear arithmetic with quotients and remainders by constants. *)
Ltac div_lia := zify; Z.to_euclidean_division_equations; lia.

(** Every test of the goal decided by arithmetic. *)
Ltac decide_tests :=
  repeat match goal with
         | |- context [?a =? ?b] =>
             destruct (N.eqb_spec a b); try (exfalso; div_lia);
             cbv beta iota
         | |- context [?a <? ?b] =>
             destruct (N.ltb_spec a b); try (exfalso; div_lia);
             cbv beta iota
         | |- context [?a <=? ?b] =>
             destruct (N.leb_spec a b); try (exfalso; div_lia);
             cbv beta iota
         end.

Lemma utf8_decode_cons (b0 : N) (r0 : list N) :
  utf8_decode (b0 :: r0)
  = if b0 <? 0x80 then option_map (cons b0) (utf8_decode r0)
    else if in_range 0xC2 0xDF b0 then
      match r0 with
      | b1 :: r1 =>
          if is_cont b1
          then option_map (cons ((b0 - 0xC0) * 64 + (b1 - 0x80)))
                          (utf8_decode r1)
          else None
      | _ => None
      end
    else if in_range 0xE0 0xEF b0 then
      match r0 with
      | b1 :: b2 :: r2 =>
          if in_range (if b0 =? 0xE0 then 0xA0 else 0x80)
                      (if b0 =? 0xED then 0x9F else 0xBF) b1
             && is_cont b2
          then option_map
                 (cons ((b0 - 0xE0) * 4096 + (b1 - 0x80) * 64
                        + (b2 - 0x80)))
                 (utf8_decode r2)
          else None
      | _ => None
      end
    else if in_range 0xF0 0xF4 b0 then
      match r0 with
      | b1 :: b2 :: b3 :: r3 =>
          if in_range (if b0 =? 0xF0 then 0x90 else 0x80)
                      (if b0 =? 0xF4 then 0x8F else 0xBF) b1
             && is_cont b2 && is_cont b3
          then option_map
                 (cons ((b0 - 0xF0) * 262144 + (b1 - 0x80) * 4096
                        + (b2 - 0x80) * 64 + (b3 - 0x80)))
                 (utf8_decode r3)
          else None
      | _ => None
      end
    else None.
Proof. reflexivity. Qed.

(** Decoding undoes the encoding of one character. *)
Lemma utf8_decode_encode_char (c : N) (rest : list N) :
  is_scalar c = true ->
  utf8_decode (utf8_encode_char c ++ rest)
  = option_map (cons c) (utf8_decode rest).
Proof.
  intros Hc. tests_to_props. unfold utf8_encode_char.
  destruct (N.ltb_spec c 0x80); [| destruct (N.ltb_spec c 0x800);
    [| destruct (N.ltb_spec c 0x10000)]];
    cbn [app]; rewrite utf8_decode_cons; unfold in_range, is_cont.
  - decide_tests. reflexivity.
  - decide_tests; cbn [andb]; do 2 f_equal; div_lia.
  - destruct H0 as [H0 | H0]; tests_to_props;
      decide_tests; cbn [andb]; do 2 f_equal; div_lia.
  - decide_tests; cbn [andb]; do 2 f_equal; div_lia.
Qed.

Lemma utf8_decode_nil_inv (bs : list N) : utf8_decode bs = Some [] -> bs = [].
Proof.
  destruct bs as [| b0 r0]; [reflexivity |]. intros H.
  apply utf8_decode_nonempty in H; [contradiction | discriminate].
Qed.

(** The end of the inversion of one decoded character. *)
Ltac decoded_char rest :=
  exists rest; tests_to_props;
  split;
  [ unfold utf8_encode_char; decide_tests; cbn [app]; repeat f_equal;
    div_lia
  | split;
    [ unfold is_scalar; decide_tests; reflexivity | assumption ] ].

(** The decoder accepts nothing but the encoding of its result. *)
Lemma utf8_decode_cons_inv (bs : list N) (c : N) (s : pystr) :
  utf8_decode bs = Some (c :: s) ->
  exists rest,
    bs = utf8_encode_char c ++ rest
    /\ is_scalar c = true
    /\ utf8_decode rest = Some s.
Proof.
  destruct bs as [| b0 r0]; [discriminate |].
  rewrite utf8_decode_cons. intros H.
  destruct (b0 <? 0x80) eqn:E0.
  { destruct (utf8_decode r0) eqn:E; [| discriminate].
    injection H as <- <-. decoded_char r0. }
  destruct (in_range 0xC2 0xDF b0) eqn:E1.
  { destruct r0 as [| b1 r1]; [discriminate |].
    destruct (is_cont b1) eqn:E2; [| discriminate].
    destruct (utf8_decode r1) eqn:E; [| discriminate].
    injection H as <- <-. decoded_char r1. }
  destruct (in_range 0xE0 0xEF b0) eqn:E2.
  { destruct r0 as [| b1 [| b2 r2]]; try discriminate.
    destruct (in_range (if b0 =? 0xE0 then 0xA0 else 0x80)
                       (if b0 =? 0xED then 0x9F else 0xBF) b1
              && is_cont b2) eqn:E3; [| discriminate].
    destruct (utf8_decode r2) eqn:E; [| discriminate].
    injection H as <- <-.
    destruct (N.eqb_spec b0 0xE0), (N.eqb_spec b0 0xED);
      decoded_char r2. }
  destruct (in_range 0xF0 0xF4 b0) eqn:E3; [| discriminate].
  destruct r0 as [| b1 [| b2 [| b3 r3]]]; try discriminate.
  destruct (in_range (if b0 =? 0xF0 then 0x90 else 0x80)
                     (if b0 =? 0xF4 then 0x8F else 0xBF) b1
            && is_cont b2 && is_cont b3) eqn:E4; [| discriminate].
  destruct (utf8_decode r3) eqn:E; [| discriminate].
  injection H as <- <-.
  destruct (N.eqb_spec b0 0xF0), (N.eqb_spec b0 0xF4);
    decoded_char r3.
Qed.

Lemma utf8_decode_encode (s : pystr) :
  forallb is_scalar s = true -> utf8_decode (utf8_encode s) = Some s.
Proof.
  induction s as [| c s IH]; [reflexivity |]. cbn [forallb].
  intros H. apply andb_prop in H as [Hc Hs].
  cbn [utf8_encode flat_map]. rewrite utf8_decode_encode_char by assumption.
  fold (utf8_encode s). now rewrite IH.
Qed.

Lemma utf8_decode_inv (s : pystr) (bs : list N) :
  utf8_decode bs = Some s ->
  bs = utf8_encode s /\ forallb is_scalar s = true.
Proof.
  revert bs. induction s as [| c s IH]; intros bs H.
  - apply utf8_decode_nil_inv in H. now subst.
  - apply utf8_decode_cons_inv in H as (rest & -> & Hc & Hrest).
    destruct (IH rest Hrest) as [-> Hs]. cbn [forallb].
    now rewrite Hc, Hs.
Qed.

Lemma utf8_encode_char_length (c : N) :
  (1 <= List.length (utf8_encode_char c))%nat.
Proof.
  unfold utf8_encode_char.
  destruct (c <? 0x80), (c <? 0x800), (c <? 0x10000); simpl; lia.
Qed.

Lemma utf8_encode_length (s : pystr) :
  (List.length s <= List.length (utf8_encode s))%nat.
Proof.
  induction s as [| c s IH]; [reflexivity |].
  cbn [utf8_encode flat_map]. fold (utf8_encode s).
  rewrite length_app. pose proof (utf8_encode_char_length c).
  cbn [List.length]. lia.
Qed.

Lemma latin1_is_scalar (b : list byte) :
  forallb is_scalar (map Byte.to_N b) = true.
Proof.
  induction b as [| x b IH]; [reflexivity |]. cbn [map forallb].
  rewrite IH, andb_true_r. pose proof (Byte.to_N_bounded x).
  unfold is_scalar. decide_tests; reflexivity.
Qed.

Lemma utf8_decode_ascii (bs : list N) :
  forallb (fun c => c <? 0x80) bs = true -> utf8_decode bs = Some bs.
Proof.
  induction bs as [| c bs IH]; [reflexivity |]. cbn [forallb].
  intros H. apply andb_prop in H as [Hc Hbs].
  rewrite utf8_decode_cons, Hc, IH by assumption. reflexivity.
Qed.

(** X1. The bytes of a text in UTF-8 are decoded to that text, and
    bytes that are the UTF-8 encoding of no text are read as Latin-1,
    byte by byte: [decode_if_bytes] returns [text] for the bytes [b]
    exactly when [b] is the UTF-8 encoding of [text], a string of
    Unicode scalar values, or [b] is the encoding of no such string and
    [text] has the bytes of [b] as its code points. *)
Theorem decode_if_bytes_utf8_or_latin1 (b : list byte) (text : pystr) :
  decode_if_bytes (VBytes b) = Ok text
  <-> (map Byte.to_N b = utf8_encode text
       /\ forallb is_scalar text = true)
      \/ ((forall t, forallb is_scalar t = true ->
                     map Byte.to_N b <> utf8_encode t)
          /\ text = map Byte.to_N b).
Proof.
  rewrite decode_if_bytes_decoded. unfold decoded. split.
  - intros H. injection H as <-.
    destruct (utf8_decode (map Byte.to_N b)) as [s |] eqn:E.
    + left. now apply utf8_decode_inv.
    + right. split; [| reflexivity]. intros t Ht Hb.
      rewrite Hb, utf8_decode_encode in E by assumption. discriminate.
  - intros [[Hb Ht] | [Hnone ->]].
    + now rewrite Hb, utf8_decode_encode.
    + destruct (utf8_decode (map Byte.to_N b)) as [s |] eqn:E;
        [| reflexivity].
      apply utf8_decode_inv in E as [Hb Hs]. now destruct (Hnone s Hs).
Qed.

(** X2. What [decode_if_bytes] makes of bytes is a text: its code
    points are Unicode scalar values, it has no more characters than
    there are bytes, and it is empty only when there are no bytes. *)
Theorem decoded_bytes_are_text (b : list byte) :
  exists text,
    decode_if_bytes (VBytes b) = Ok text
    /\ forallb is_scalar text = true
    /\ (List.length text <= List.length b)%nat
    /\ (text = [] <-> b = []).
Proof.
  rewrite decode_if_bytes_decoded. eexists. split; [reflexivity |].
  unfold decoded.
  destruct (utf8_decode (map Byte.to_N b)) as [s |] eqn:E.
  - pose proof E as Hinv. apply utf8_decode_inv in Hinv as [Hb Hs].
    split; [assumption |]. split.
    + rewrite <- (length_map Byte.to_N b), Hb. apply utf8_encode_length.
    + split.
      * intros ->. apply utf8_decode_inv in E as [E _].
        now destruct b.
      * intros ->. simpl in E. now injection E as <-.
  - split; [apply latin1_is_scalar |]. split.
    + now rewrite length_map.
    + split; intros H; [now destruct b | now subst].
Qed.

(** X3. Bytes below [0x80] are decoded to themselves: ASCII text comes
    out of [decode_if_bytes] character for character. *)
Theorem ascii_bytes_decode_to_themselves (b : list byte) :
  forallb (fun x => Byte.to_N x <? 0x80) b = true ->
  decode_if_bytes (VBytes b) = Ok (map Byte.to_N b).
Proof.
  intros H. rewrite decode_if_bytes_decoded. unfold decoded.
  rewrite utf8_decode_ascii; [reflexivity |].
  induction b as [| x b IH]; [reflexivity |]. cbn [map forallb] in *.
  apply andb_prop in H as [Hx Hb]. now rewrite Hx, IH.
Qed.

(* ----------------------------------------------------------------- *)
(** ** The recipient *)

Lemma scan_lines_first (before after : list pystr) (line : pystr) :
  existsb is_to_line before = false ->
  is_to_line line = true ->
  scan_lines (before ++ line :: after) = strip (skipn 3 line).
Proof.
  intros Hbefore Hline.
  induction before as [| l before IH]; simpl.
  - now rewrite Hline.
  - simpl in Hbefore. apply orb_false_elim in Hbefore as [Hl Hrest].
    rewrite Hl. now apply IH.
Qed.

Lemma scan_lines_none (lines : list pystr) :
  existsb is_to_line lines = false -> scan_lines lines = [].
Proof.
  induction lines as [| l lines IH]; simpl; [reflexivity |].
  intros H. apply orb_false_elim in H as [Hl Hrest].
  rewrite Hl. now apply IH.
Qed.

Lemma is_to_line_nil : is_to_line [] = false.
Proof. reflexivity. Qed.

Lemma ascii_lower_eqb (c x : N) :
  97 <= x <= 122 ->
  (ascii_lower c =? x) = ((c =? x - 32) || (c =? x)).
Proof.
  intros Hx. unfold ascii_lower.
  destruct (N.leb_spec 65 c), (N.leb_spec c 90); simpl;
    repeat match goal with
           | |- context [?a =? ?b] => destruct (N.eqb_spec a b)
           end; simpl; try reflexivity; lia.
Qed.

(** On a line that starts with three ASCII characters the test of line
    81 looks at those three only. *)
Lemma is_to_line_ascii (c1 c2 c3 : N) (rest : pystr) :
  c1 < 128 -> c2 < 128 -> c3 < 128 ->
  is_to_line (c1 :: c2 :: c3 :: rest)
  = ((c1 =? 84) || (c1 =? 116)) && ((c2 =? 79) || (c2 =? 111))
    && (c3 =? 58).
Proof.
  intros H1 H2 H3.
  unfold is_to_line, lower. simpl lower_from. unfold lower_char.
  apply N.ltb_lt in H1, H2, H3. rewrite H1, H2, H3.
  change (lit "to:") with [116; 111; 58]. simpl.
  rewrite (ascii_lower_eqb c1 116), (ascii_lower_eqb c2 111) by lia.
  change (116 - 32) with 84. change (111 - 32) with 79.
  rewrite andb_true_r, andb_assoc. f_equal.
  unfold ascii_lower.
  destruct (N.leb_spec 65 c3), (N.leb_spec c3 90); simpl; try reflexivity.
  destruct (N.eqb_spec c3 58), (N.eqb_spec (c3 + 32) 58);
    try reflexivity; lia.
Qed.

(** C7. The recipient is the remainder after the first three characters,
    stripped of white space at both ends, of the first line that starts
    with [to:] in any case; it is empty when no line does; later [to:]
    lines do not count. On three ASCII characters the test is on those
    characters alone, and the header blob of the specification gives
    [b@example.com]. *)
Theorem recipient_extraction (headers : pystr) :
  (forall (before after : list pystr) (line : pystr),
      split 10 headers = before ++ line :: after ->
      existsb is_to_line before = false ->
      is_to_line line = true ->
      extract_to headers = strip (skipn 3 line))
  /\ (existsb is_to_line (split 10 headers) = false -> extract_to headers = [])
  /\ (forall (c1 c2 c3 : N) (rest : pystr),
         c1 < 128 -> c2 < 128 -> c3 < 128 ->
         is_to_line (c1 :: c2 :: c3 :: rest)
         = ((c1 =? 84) || (c1 =? 116)) && ((c2 =? 79) || (c2 =? 111))
           && (c3 =? 58))
  /\ extract_to example_headers = lit "b@example.com".
Proof.
  split; [| split; [| split]].
  - intros before after line Hsplit Hbefore Hline.
    unfold extract_to. destruct headers as [| c headers'].
    + simpl in Hsplit.
      destruct before as [| l before]; simpl in Hsplit.
      * injection Hsplit as <- _. discriminate Hline.
      * injection Hsplit as _ Hnil. now destruct before.
    + cbn [truthy]. rewrite Hsplit. now apply scan_lines_first.
  - intros Hnone. unfold extract_to.
    destruct (truthy (VStr headers)); [| reflexivity].
    now apply scan_lines_none.
  - apply is_to_line_ascii.
  - vm_compute. reflexivity.
Qed.

(* ----------------------------------------------------------------- *)
(** ** The attachments *)

Lemma name_entry_decoded (name : PyVal) : name_entry name = [decoded name].
Proof. unfold name_entry. now rewrite decode_if_bytes_decoded. Qed.

(** One turn of the loop of line 88 appends the entry of the slot. *)
Lemma attachment_slot_entry (message : Message) (attachments : list pystr)
    (j : Z) :
  try_except (attachment_slot message attachments j) any_exception
             (fun _ => Ok attachments)
  = Ok (attachments ++ slot_entry (get_attachment message j)).
Proof.
  unfold attachment_slot, slot_entry.
  destruct (get_attachment message j) as [a | e]; simpl;
    [| now rewrite app_nil_r].
  destruct (get_long_filename a) as [long | e]; simpl;
    [| now rewrite app_nil_r].
  destruct (truthy long) eqn:Hlong; simpl.
  - rewrite Hlong, name_entry_decoded, decode_if_bytes_decoded. reflexivity.
  - destruct (get_short_filename a) as [short | e]; simpl;
      [| now rewrite app_nil_r].
    destruct (truthy short) eqn:Hshort.
    + rewrite name_entry_decoded, decode_if_bytes_decoded. reflexivity.
    + now rewrite app_nil_r.
Qed.

Lemma attachment_loop (message : Message) (indices : list Z)
    (attachments : list pystr) :
  for_fold (fun attachments j =>
              try_except (attachment_slot message attachments j)
                         any_exception (fun _ => Ok attachments))
           indices attachments
  = Ok (attachments
        ++ flat_map (fun j => slot_entry (get_attachment message j)) indices).
Proof.
  revert attachments.
  induction indices as [| j indices IH]; intros attachments; simpl.
  - now rewrite app_nil_r.
  - rewrite attachment_slot_entry. simpl. rewrite IH, <- app_assoc.
    reflexivity.
Qed.

Lemma read_attachments_names (message : Message) :
  read_attachments message = Ok (attachment_names message).
Proof.
  unfold read_attachments, attachment_names.
  destruct (get_number_of_attachments message) as [n | e]; simpl;
    [| reflexivity].
  now rewrite attachment_loop.
Qed.

Lemma slot_entry_no_empty (slot : Res Attachment) :
  (List.length (slot_entry slot) <= 1)%nat /\ ~ In [] (slot_entry slot).
Proof.
  assert (Hname : forall v, truthy v = true ->
            (List.length (name_entry v) <= 1)%nat /\ ~ In [] (name_entry v)).
  { intros v Hv. rewrite name_entry_decoded. split; [simpl; lia |].
    intros [H | []]. now apply (decoded_nonempty v Hv). }
  unfold slot_entry.
  destruct slot as [a | e]; [| simpl; split; [lia | tauto]].
  destruct (get_long_filename a) as [long | e];
    [| simpl; split; [lia | tauto]].
  destruct (truthy long) eqn:Hlong; [now apply Hname |].
  destruct (get_short_filename a) as [short | e];
    [| simpl; split; [lia | tauto]].
  destruct (truthy short) eqn:Hshort; [now apply Hname |].
  simpl; split; [lia | tauto].
Qed.

(** C8. The names of a message are the entries of its slots in index
    order, where the entry of a slot is the long file name if it is there
    and not empty, else the short one if it is there and not empty, else
    nothing; a slot that cannot be read has no entry and the slots after
    it keep theirs; no entry is the empty string; and the reading of the
    attachments never fails the message. *)
Theorem attachment_fallback (message : Message) :
  read_attachments message
  = Ok (match get_number_of_attachments message with
        | Ok attachment_count =>
            flat_map (fun j => slot_entry (get_attachment message j))
                     (range attachment_count)
        | Raise _ => []
        end)
  /\ (forall (long : PyVal) (short : Res PyVal),
         slot_entry (Ok (mkAttachment (Ok long) short))
         = if truthy long then [decoded long]
           else match short with
                | Ok name => if truthy name then [decoded name] else []
                | Raise _ => []
                end)
  /\ (forall (e : exn) (short : Res PyVal),
         slot_entry (Raise e) = []
         /\ slot_entry (Ok (mkAttachment (Raise e) short)) = [])
  /\ (forall slot : Res Attachment,
         (List.length (slot_entry slot) <= 1)%nat
         /\ ~ In [] (slot_entry slot)).
Proof.
  split; [apply read_attachments_names |].
  split; [| split; [intros; split; reflexivity | apply slot_entry_no_empty]].
  intros long short. unfold slot_entry. simpl.
  rewrite name_entry_decoded.
  destruct (truthy long); [reflexivity |].
  destruct short as [name | e]; [| reflexivity].
  rewrite name_entry_decoded. reflexivity.
Qed.

(* ----------------------------------------------------------------- *)
(** ** Loops over the sinks *)

Lemma for_each_app (xs ys : list Z) (body : Z -> M unit) (s : Sinks) :
  for_each (xs ++ ys) body s
  = bindM (for_each xs body) (fun _ => for_each ys body) s.
Proof.
  revert s. induction xs as [| x xs IH]; intros s; simpl.
  - unfold bindM, ret. reflexivity.
  - unfold bindM. destruct (body x s) as [[[] | e] s']; [| reflexivity].
    rewrite IH. reflexivity.
Qed.



(* ----------------------------------------------------------------- *)
(** ** One message *)

(** What one turn of the message loop does to the sinks. *)
Lemma message_iteration_eq (folder : Folder) (i : Z) (s : Sinks) :
  message_iteration folder i s
  = match build_email_data folder i with
    | Raise _ => (Ok tt, s)
    | Ok built =>
        (Ok tt,
         mkSinks (emails s ++ [fst built])
                 (match writerow (csv_data s) (snd built) with
                  | Ok f => f
                  | Raise _ => csv_data s
                  end))
    end.
Proof.
  unfold message_iteration, process_message, try_exceptM, bindM, call,
    emails_append, csv_writer_writerow, ret.
  destruct (build_email_data folder i) as [built | e]; [| reflexivity].
  cbn [emails csv_data].
  destruct (writerow (csv_data s) (snd built)); reflexivity.
Qed.

Lemma message_iteration_emails (folder : Folder) (i : Z) (s : Sinks) :
  fst (message_iteration folder i s) = Ok tt
  /\ emails (snd (message_iteration folder i s))
     = emails s ++ message_record folder i.
Proof.
  rewrite message_iteration_eq. unfold message_record.
  destruct (build_email_data folder i); simpl; [tauto |].
  now rewrite app_nil_r.
Qed.

Lemma messages_emails (folder : Folder) (indices : list Z) (s : Sinks) :
  fst (for_each indices (message_iteration folder) s) = Ok tt
  /\ emails (snd (for_each indices (message_iteration folder) s))
     = emails s ++ flat_map (message_record folder) indices.
Proof.
  revert s. induction indices as [| i indices IH]; intros s; simpl.
  - now rewrite app_nil_r.
  - unfold bindM.
    destruct (message_iteration_emails folder i s) as [Hok Hemails].
    destruct (message_iteration folder i s) as [r s']. simpl in Hok, Hemails.
    subst r. destruct (IH s') as [Hok' Hemails'].
    rewrite Hemails', Hemails, <- app_assoc. tauto.
Qed.

(* ----------------------------------------------------------------- *)
(** ** The walk *)

Lemma process_pst_folder_eq (room : nat) (folder : Folder) :
  process_pst_folder room folder
  = try_exceptM (folder_body room folder) (fun _ => ret tt).
Proof. destruct room; reflexivity. Qed.

Lemma dfs_records_eq (folder : Folder) :
  dfs_records folder
  = match get_number_of_sub_messages folder with
    | Raise _ => []
    | Ok message_count =>
        flat_map (message_record folder) (range message_count)
        ++ match get_number_of_sub_folders folder with
           | Raise _ => []
           | Ok sub_folder_count =>
               walk_records folder (range sub_folder_count)
           end
    end.
Proof.
  destruct folder as [nm gm ns gs]; simpl.
  destruct nm; [| reflexivity]. f_equal.
  destruct ns as [n |]; [| reflexivity].
  induction (range n) as [| i rest IH]; simpl; [reflexivity |].
  destruct (gs i); [| reflexivity]. now rewrite IH.
Qed.

Lemma walk_records_prefix (folder : Folder) (indices : list Z) :
  walk_records folder indices
  = flat_map (sub_records folder)
             (readable_prefix (get_sub_folder folder) indices).
Proof.
  induction indices as [| i rest IH]; simpl; [reflexivity |].
  destruct (get_sub_folder folder i) eqn:E; simpl; [| reflexivity].
  unfold sub_records at 1. rewrite E, IH. reflexivity.
Qed.

Lemma readable_prefix_Ok {A : Type} (get : Z -> Res A) (indices : list Z)
    (i : Z) :
  In i (readable_prefix get indices) -> exists a, get i = Ok a.
Proof.
  induction indices as [| j rest IH]; simpl; [contradiction |].
  destruct (get j) as [a |] eqn:E; [| contradiction].
  intros [<- | H]; [now exists a | now apply IH].
Qed.

Lemma flat_map_ext_in {A B : Type} (f g : A -> list B) (l : list A) :
  (forall x, In x l -> f x = g x) -> flat_map f l = flat_map g l.
Proof.
  induction l as [| x l IH]; intros H; simpl; [reflexivity |].
  rewrite (H x (or_introl eq_refl)), IH; [reflexivity |].
  intros y Hy. apply H. now right.
Qed.

Lemma map_flat_map {A B C : Type} (g : B -> C) (f : A -> list B)
    (l : list A) :
  map g (flat_map f l) = flat_map (fun x => map g (f x)) l.
Proof.
  induction l as [| x l IH]; simpl; [reflexivity |].
  now rewrite map_app, IH.
Qed.

Lemma message_built_record (folder : Folder) (i : Z) :
  map fst (message_built folder i) = message_record folder i.
Proof.
  unfold message_built, message_record.
  destruct (build_email_data folder i); reflexivity.
Qed.

Lemma built_within_eq (room : nat) (folder : Folder) :
  built_within room folder
  = match get_number_of_sub_messages folder with
    | Raise _ => []
    | Ok message_count =>
        flat_map (message_built folder) (range message_count)
        ++ match get_number_of_sub_folders folder, room with
           | Ok sub_folder_count, S room' =>
               flat_map (sub_built room' folder)
                        (readable_prefix (get_sub_folder folder)
                                         (range sub_folder_count))
           | _, _ => []
           end
    end.
Proof. destruct room; reflexivity. Qed.

Lemma records_within_eq (room : nat) (folder : Folder) :
  records_within room folder
  = match get_number_of_sub_messages folder with
    | Raise _ => []
    | Ok message_count =>
        flat_map (message_record folder) (range message_count)
        ++ match get_number_of_sub_folders folder, room with
           | Ok sub_folder_count, S room' =>
               flat_map (sub_records_within room' folder)
                        (readable_prefix (get_sub_folder folder)
                                         (range sub_folder_count))
           | _, _ => []
           end
    end.
Proof.
  unfold records_within. rewrite built_within_eq.
  destruct (get_number_of_sub_messages folder) as [n | e]; [| reflexivity].
  rewrite map_app, map_flat_map. f_equal.
  - apply flat_map_ext_in. intros i _. apply message_built_record.
  - destruct (get_number_of_sub_folders folder) as [m | e], room;
      try reflexivity.
    apply map_flat_map.
Qed.

Lemma table_lines_app (built1 built2 : list (EmailData * list PyVal)) :
  table_lines (built1 ++ built2) = table_lines built1 ++ table_lines built2.
Proof. apply flat_map_app. Qed.

(** What one turn of the message loop writes to an open file. *)
Lemma message_iteration_table (folder : Folder) (i : Z) (s : Sinks) :
  closed (csv_data s) = false ->
  closed (csv_data (snd (message_iteration folder i s))) = false
  /\ getvalue (csv_data (snd (message_iteration folder i s)))
     = getvalue (csv_data s) ++ table_lines (message_built folder i).
Proof.
  intros Hopen. rewrite message_iteration_eq. unfold message_built.
  destruct (build_email_data folder i) as [built | e]; cbn [snd csv_data].
  - unfold writerow. rewrite Hopen. cbn [closed getvalue table_lines flat_map].
    now rewrite app_nil_r.
  - cbn [table_lines flat_map]. now rewrite app_nil_r.
Qed.

Lemma messages_table (folder : Folder) (indices : list Z) (s : Sinks) :
  closed (csv_data s) = false ->
  closed (csv_data (snd (for_each indices (message_iteration folder) s)))
  = false
  /\ getvalue (csv_data (snd (for_each indices
                                (message_iteration folder) s)))
     = getvalue (csv_data s)
       ++ table_lines (flat_map (message_built folder) indices).
Proof.
  revert s. induction indices as [| i indices IH]; intros s Hopen; simpl.
  - now rewrite app_nil_r.
  - unfold bindM.
    destruct (message_iteration_emails folder i s) as [Hok _].
    destruct (message_iteration_table folder i s Hopen) as [Hopen' Hvalue].
    destruct (message_iteration folder i s) as [r s'].
    simpl in Hok, Hopen', Hvalue. subst r.
    destruct (IH s' Hopen') as [Hopen'' Hvalue'].
    rewrite Hvalue', Hvalue, table_lines_app, <- app_assoc. tauto.
Qed.

Lemma for_each_cons (i : Z) (rest : list Z) (body : Z -> M unit)
    (s : Sinks) :
  for_each (i :: rest) body s
  = match body i s with
    | (Ok _, s') => for_each rest body s'
    | (Raise e, s') => (Raise e, s')
    end.
Proof. reflexivity. Qed.

Lemma sub_folder_iteration_eq (room : nat) (folder : Folder) (i : Z)
    (s : Sinks) :
  sub_folder_iteration (S room) folder i s
  = match get_sub_folder folder i with
    | Ok sub_folder => process_pst_folder room sub_folder s
    | Raise e => (Raise e, s)
    end.
Proof.
  unfold sub_folder_iteration, bindM, call.
  destruct (get_sub_folder folder i); reflexivity.
Qed.

(** The loop over the sub-folders when there is no room for a call: its
    first turn raises, and the sinks stay as they are. *)
Lemma sub_folders_no_room (folder : Folder) (indices : list Z) (s : Sinks) :
  snd (for_each indices (sub_folder_iteration 0 folder) s) = s.
Proof.
  destruct indices as [| i rest]; [reflexivity |].
  cbn [for_each]. unfold bindM at 1, sub_folder_iteration, bindM, call.
  destruct (get_sub_folder folder i); reflexivity.
Qed.

(** The walk of a folder never raises, keeps what is in [emails], and
    appends the records of the folder that are within its room; it
    leaves an open table open, keeps what is written there, and writes
    the rows of the same messages in the same order. *)
Lemma process_pst_folder_sinks (room : nat) :
  forall (folder : Folder) (s : Sinks),
    fst (process_pst_folder room folder s) = Ok tt
    /\ emails (snd (process_pst_folder room folder s))
       = emails s ++ records_within room folder
    /\ (closed (csv_data s) = false ->
        closed (csv_data (snd (process_pst_folder room folder s))) = false
        /\ getvalue (csv_data (snd (process_pst_folder room folder s)))
           = getvalue (csv_data s)
             ++ table_lines (built_within room folder)).
Proof.
  induction room as [| room IH]; intros folder s.
  - rewrite process_pst_folder_eq, records_within_eq, built_within_eq.
    unfold try_exceptM, folder_body, bindM, call, ret, message_loop.
    destruct (get_number_of_sub_messages folder) as [mc | e];
      [| cbn; rewrite !app_nil_r; tauto].
    destruct (messages_emails folder (range mc) s) as [Hok Hemails].
    pose proof (messages_table folder (range mc) s) as Htable.
    destruct (for_each (range mc) (message_iteration folder) s) as [r s1].
    simpl in Hok, Hemails, Htable. subst r.
    assert (Hend : forall r s2,
      (r, s2) = (Ok tt, s1) \/ s2 = s1 ->
      emails s2
      = emails s
        ++ flat_map (message_record folder) (range mc)
        ++ match get_number_of_sub_folders folder, 0%nat with
           | Ok _, S _ => [] | _, _ => []
           end
      /\ (closed (csv_data s) = false ->
          closed (csv_data s2) = false
          /\ getvalue (csv_data s2)
             = getvalue (csv_data s)
               ++ table_lines
                    (flat_map (message_built folder) (range mc) ++ []))).
    { intros r s2 Hs2. assert (s2 = s1) as ->
        by (destruct Hs2 as [H | H]; [now injection H | exact H]).
      split.
      - rewrite Hemails.
        destruct (get_number_of_sub_folders folder); now rewrite app_nil_r.
      - intros Hopen. rewrite app_nil_r. now apply Htable. }
    destruct (get_number_of_sub_folders folder) as [sc | e] eqn:Hsc.
    + pose proof (sub_folders_no_room folder (range sc) s1) as Hsubs.
      destruct (for_each (range sc) (sub_folder_iteration 0 folder) s1)
        as [[[] | e] s2]; simpl in Hsubs; subst s2;
        (split; [reflexivity |]); cbn [snd];
        apply (Hend (Ok tt) s1); now right.
    + split; [reflexivity |]. cbn [snd].
      apply (Hend (Ok tt) s1). now right.
  - assert (Hsubs : forall indices s1,
      emails (snd (for_each indices
                     (sub_folder_iteration (S room) folder) s1))
      = emails s1
        ++ flat_map (sub_records_within room folder)
                    (readable_prefix (get_sub_folder folder) indices)
      /\ (closed (csv_data s1) = false ->
          closed (csv_data (snd (for_each indices
                      (sub_folder_iteration (S room) folder) s1))) = false
          /\ getvalue (csv_data (snd (for_each indices
                      (sub_folder_iteration (S room) folder) s1)))
             = getvalue (csv_data s1)
               ++ table_lines
                    (flat_map (sub_built room folder)
                       (readable_prefix (get_sub_folder folder) indices)))).
    { induction indices as [| i rest IHrest]; intros s1.
      - cbn. rewrite !app_nil_r. tauto.
      - rewrite for_each_cons, sub_folder_iteration_eq.
        cbn [readable_prefix].
        destruct (get_sub_folder folder i) as [sub | e] eqn:Hsub.
        + destruct (IH sub s1) as (Hok & Hemails & Htable).
          destruct (process_pst_folder room sub s1) as [r s2].
          simpl in Hok, Hemails, Htable. subst r.
          destruct (IHrest s2) as [Hemails' Htable'].
          cbn [flat_map].
          assert (Hb : sub_built room folder i = built_within room sub)
            by (unfold sub_built; now rewrite Hsub).
          assert (Hr : sub_records_within room folder i
                       = records_within room sub)
            by (unfold sub_records_within; now rewrite Hb).
          rewrite Hb, Hr. split.
          * rewrite Hemails', Hemails, <- app_assoc. reflexivity.
          * intros Hopen. destruct (Htable Hopen) as [Hopen2 Hvalue2].
            destruct (Htable' Hopen2) as [Hopen3 Hvalue3].
            split; [exact Hopen3 |].
            rewrite Hvalue3, Hvalue2, table_lines_app, <- app_assoc.
            reflexivity.
        + cbn. rewrite !app_nil_r. tauto. }
    rewrite process_pst_folder_eq, records_within_eq, built_within_eq.
    unfold try_exceptM, folder_body, bindM, call, ret, message_loop.
    destruct (get_number_of_sub_messages folder) as [mc | e];
      [| cbn; rewrite !app_nil_r; tauto].
    destruct (messages_emails folder (range mc) s) as [Hok Hemails].
    pose proof (messages_table folder (range mc) s) as Htable.
    destruct (for_each (range mc) (message_iteration folder) s) as [r s1].
    simpl in Hok, Hemails, Htable. subst r.
    destruct (get_number_of_sub_folders folder) as [sc | e].
    + destruct (Hsubs (range sc) s1) as [Hemails' Htable'].
      destruct (for_each (range sc)
                  (sub_folder_iteration (S room) folder) s1)
        as [[[] | e] s2]; cbn [fst snd] in *;
        (split; [reflexivity |]);
        (split;
         [ rewrite Hemails', Hemails, <- app_assoc; reflexivity
         | intros Hopen; destruct (Htable Hopen) as [Hopen1 Hvalue1];
           destruct (Htable' Hopen1) as [Hopen2 Hvalue2];
           split; [exact Hopen2 |];
           rewrite Hvalue2, Hvalue1, table_lines_app, <- app_assoc;
           reflexivity ]).
    + cbn [fst snd]. split; [reflexivity |]. split.
      * now rewrite Hemails, app_nil_r.
      * intros Hopen. rewrite app_nil_r. now apply Htable.
Qed.

Lemma process_pst_folder_emails (room : nat) (folder : Folder) (s : Sinks) :
  fst (process_pst_folder room folder s) = Ok tt
  /\ emails (snd (process_pst_folder room folder s))
     = emails s ++ records_within room folder.
Proof.
  destruct (process_pst_folder_sinks room folder s) as (Hok & Hemails & _).
  now split.
Qed.

Lemma process_pst_folder_table (room : nat) (folder : Folder) (s : Sinks) :
  closed (csv_data s) = false ->
  closed (csv_data (snd (process_pst_folder room folder s))) = false
  /\ getvalue (csv_data (snd (process_pst_folder room folder s)))
     = getvalue (csv_data s) ++ table_lines (built_within room folder).
Proof.
  intros Hopen.
  destruct (process_pst_folder_sinks room folder s) as (_ & _ & Htable).
  now apply Htable.
Qed.

(** A tree that fits the room is walked to its leaves: the records
    within the room are the records of the tree. *)
Lemma fits_records (room : nat) :
  forall folder : Folder,
    fits room folder = true -> records_within room folder = dfs_records folder.
Proof.
  induction room as [| room IH]; intros folder Hfits;
    rewrite records_within_eq, dfs_records_eq;
    destruct (get_number_of_sub_messages folder) as [mc | e] eqn:Hmc;
    try reflexivity; f_equal;
    destruct (get_number_of_sub_folders folder) as [sc | e] eqn:Hsc;
    try reflexivity; rewrite walk_records_prefix.
  - cbn [fits] in Hfits. rewrite Hmc, Hsc in Hfits.
    destruct (readable_prefix (get_sub_folder folder) (range sc))
      as [| i rest] eqn:Hprefix; [reflexivity |].
    destruct (readable_prefix_Ok (get_sub_folder folder) (range sc) i)
      as [sub Hsub]; [rewrite Hprefix; now left |].
    cbn [forallb] in Hfits. rewrite Hsub in Hfits. discriminate Hfits.
  - cbn [fits] in Hfits. rewrite Hmc, Hsc in Hfits.
    rewrite forallb_forall in Hfits.
    apply flat_map_ext_in. intros i Hi. specialize (Hfits i Hi).
    unfold sub_records_within, sub_built, sub_records.
    destruct (get_sub_folder folder i) as [sub | e]; [| reflexivity].
    now apply IH.
Qed.

(** [range(n)] is [0, 1, ..., n - 1]. *)
Lemma range_from_seq (a : Z) (m : nat) :
  range_from a m = map (fun k => (a + Z.of_nat k)%Z) (seq 0 m).
Proof.
  revert a. induction m as [| m IH]; intros a; [reflexivity |].
  cbn [range_from seq map]. rewrite IH, <- seq_shift, map_map.
  f_equal; [f_equal; lia |].
  apply map_ext. intros k. lia.
Qed.

Lemma range_seq (n : Z) : range n = map Z.of_nat (seq 0 (Z.to_nat n)).
Proof. unfold range. now rewrite range_from_seq. Qed.

(* ----------------------------------------------------------------- *)
(** ** The record of a message *)

Lemma build_email_data_eq (folder : Folder) (i : Z) :
  build_email_data folder i
  = (message <- get_sub_message folder i ;;
     sender <- get_sender_name message ;;
     subject <- get_subject message ;;
     body <- get_plain_text_body message ;;
     delivery_time <- get_delivery_time message ;;
     headers <- get_transport_headers message ;;
     Ok (built_of message sender subject body delivery_time headers))%res.
Proof.
  unfold build_email_data, built_of.
  destruct (get_sub_message folder i) as [message | e]; [| reflexivity].
  cbn [bindR]. rewrite read_attachments_names.
  destruct (get_sender_name message) as [sender | e]; [| reflexivity].
  cbn [bindR]. rewrite decode_if_bytes_decoded. cbn [bindR].
  destruct (get_subject message) as [subject | e]; [| reflexivity].
  cbn [bindR]. rewrite decode_if_bytes_decoded. cbn [bindR].
  destruct (get_plain_text_body message) as [body | e]; [| reflexivity].
  cbn [bindR]. rewrite decode_if_bytes_decoded. cbn [bindR].
  destruct (get_delivery_time message) as [time | e]; [| reflexivity].
  cbn [bindR].
  destruct (get_transport_headers message) as [headers | e];
    [| reflexivity].
  cbn [bindR]. rewrite decode_if_bytes_decoded. reflexivity.
Qed.

Lemma build_email_data_inv (folder : Folder) (i : Z)
    (built : EmailData * list PyVal) :
  build_email_data folder i = Ok built ->
  exists message sender subject body delivery_time headers,
    get_sub_message folder i = Ok message
    /\ get_sender_name message = Ok sender
    /\ get_subject message = Ok subject
    /\ get_plain_text_body message = Ok body
    /\ get_delivery_time message = Ok delivery_time
    /\ get_transport_headers message = Ok headers
    /\ built = built_of message sender subject body delivery_time headers.
Proof.
  rewrite build_email_data_eq. intros H.
  destruct (get_sub_message folder i) as [message | e];
    [| discriminate H].
  cbn [bindR] in H.
  destruct (get_sender_name message) as [sender | e] eqn:E1;
    [| discriminate H].
  destruct (get_subject message) as [subject | e] eqn:E2;
    [| discriminate H].
  destruct (get_plain_text_body message) as [body | e] eqn:E3;
    [| discriminate H].
  destruct (get_delivery_time message) as [time | e] eqn:E4;
    [| discriminate H].
  destruct (get_transport_headers message) as [headers | e] eqn:E5;
    [| discriminate H].
  cbn [bindR] in H. injection H as <-.
  exists message, sender, subject, body, time, headers. tauto.
Qed.

(** C10. The date of the record of a message is [str] of its delivery
    time, which the row carries as it was read; when the delivery time
    is [None] the date is the four characters [None], not the empty
    string. *)
Theorem date_is_str_of_delivery_time (folder : Folder) (i : Z)
    (built : EmailData * list PyVal) :
  build_email_data folder i = Ok built ->
  exists message delivery_time,
    get_sub_message folder i = Ok message
    /\ get_delivery_time message = Ok delivery_time
    /\ email_date (fst built) = py_str delivery_time
    /\ nth 4 (snd built) VNone = delivery_time
    /\ (delivery_time = VNone ->
        email_date (fst built) = [78; 111; 110; 101]
        /\ email_date (fst built) <> []).
Proof.
  intros H. apply build_email_data_inv in H
    as (message & sender & subject & body & time & headers
        & Hm & _ & _ & _ & Ht & _ & ->).
  exists message, time. repeat (split; [assumption || reflexivity |]).
  intros ->. split; [reflexivity | discriminate].
Qed.

(* ----------------------------------------------------------------- *)
(** ** Indices *)

Lemma range_from_In (a : Z) (m : nat) (i : Z) :
  In i (range_from a m) <-> (a <= i < a + Z.of_nat m)%Z.
Proof.
  revert a. induction m as [| m IH]; intros a; simpl.
  - lia.
  - rewrite IH. lia.
Qed.

Lemma range_In (n i : Z) : In i (range n) <-> (0 <= i < n)%Z.
Proof. unfold range. rewrite range_from_In. lia. Qed.








(* ----------------------------------------------------------------- *)
(** ** The order of the records *)

Lemma message_record_built_of (folder : Folder) (i : Z) (message : Message)
    (sender subject body delivery_time headers : PyVal) :
  get_sub_message folder i = Ok message ->
  get_sender_name message = Ok sender ->
  get_subject message = Ok subject ->
  get_plain_text_body message = Ok body ->
  get_delivery_time message = Ok delivery_time ->
  get_transport_headers message = Ok headers ->
  message_record folder i
  = [fst (built_of message sender subject body delivery_time headers)].
Proof.
  intros Hm H1 H2 H3 H4 H5. unfold message_record.
  rewrite build_email_data_eq, Hm. cbn [bindR].
  now rewrite H1, H2, H3, H4, H5.
Qed.

(** C2, as the code has it. The walk of a folder never raises, and the
    records that it appends are those of the traversal of the tree cut
    where the room for nested calls ends: the messages of the folder in
    index order [0 .. message_count - 1], each one that can be built
    giving the record of its fields; then, when there is room for a
    call, the sub-folders in index order up to the first one that cannot
    be retrieved, each one walked the same way with the room that is
    left. For a tree that fits the room this is the depth-first,
    messages-before-sub-folders traversal of the whole tree. The
    sequence depends on the tree and the room alone. *)
Theorem traversal_order (room : nat) (folder : Folder) (s : Sinks) :
  fst (process_pst_folder room folder s) = Ok tt
  /\ emails (snd (process_pst_folder room folder s))
     = emails s ++ records_within room folder
  /\ records_within room folder
     = match get_number_of_sub_messages folder with
       | Raise _ => []
       | Ok message_count =>
           flat_map (message_record folder) (range message_count)
           ++ match get_number_of_sub_folders folder, room with
              | Ok sub_folder_count, S room' =>
                  flat_map (sub_records_within room' folder)
                           (readable_prefix (get_sub_folder folder)
                                            (range sub_folder_count))
              | _, _ => []
              end
       end
  /\ (fits room folder = true ->
      records_within room folder = dfs_records folder
      /\ dfs_records folder
         = match get_number_of_sub_messages folder with
           | Raise _ => []
           | Ok message_count =>
               flat_map (message_record folder) (range message_count)
               ++ match get_number_of_sub_folders folder with
                  | Raise _ => []
                  | Ok sub_folder_count =>
                      walk_records folder (range sub_folder_count)
                  end
           end)
  /\ (forall n : Z, range n = map Z.of_nat (seq 0 (Z.to_nat n)))
  /\ (forall i message sender subject body delivery_time headers,
         get_sub_message folder i = Ok message ->
         get_sender_name message = Ok sender ->
         get_subject message = Ok subject ->
         get_plain_text_body message = Ok body ->
         get_delivery_time message = Ok delivery_time ->
         get_transport_headers message = Ok headers ->
         message_record folder i
         = [fst (built_of message sender subject body delivery_time
                          headers)])
  /\ (forall i sub_folder,
         get_sub_folder folder i = Ok sub_folder ->
         sub_records_within room folder i = records_within room sub_folder)
  /\ (forall f : StringIO,
         emails (snd (process_pst_folder room folder (mkSinks [] f)))
         = records_within room folder).
Proof.
  destruct (process_pst_folder_emails room folder s) as [Hok Hemails].
  split; [exact Hok |]. split; [exact Hemails |].
  split; [apply records_within_eq |].
  split; [intros Hfits; split; [now apply fits_records | apply dfs_records_eq] |].
  split; [exact range_seq |].
  split; [apply message_record_built_of |].
  split.
  - intros i sub_folder Hsub. unfold sub_records_within, sub_built.
    now rewrite Hsub.
  - intros f.
    now destruct (process_pst_folder_emails room folder (mkSinks [] f)).
Qed.

(* ----------------------------------------------------------------- *)
(** ** Isolation of a failing message *)





(* ----------------------------------------------------------------- *)
(** ** Emission to the two sinks *)

(** C4, as the code has it. One turn of the message loop never raises.
    A message that cannot be built leaves both sinks as they were. For a
    message that is built, the record is appended to [emails] first and
    the row is written second: when the row cannot be written the table
    stays as it was and the record stays in [emails]. In every case the
    loop goes on with the next message. *)
Theorem emission_appends_then_writes (folder : Folder) (i : Z) (s : Sinks) :
  message_iteration folder i s
  = match build_email_data folder i with
    | Raise _ => (Ok tt, s)
    | Ok built =>
        (Ok tt,
         mkSinks (emails s ++ [fst built])
                 (match writerow (csv_data s) (snd built) with
                  | Ok f => f
                  | Raise _ => csv_data s
                  end))
    end
  /\ (forall rest : list Z,
         for_each (i :: rest) (message_iteration folder) s
         = for_each rest (message_iteration folder)
                    (snd (message_iteration folder i s))).
Proof.
  split; [apply message_iteration_eq |].
  intros rest. simpl. unfold bindM.
  destruct (message_iteration_emails folder i s) as [Hok _].
  destruct (message_iteration folder i s) as [r s']. simpl in Hok.
  now subst r.
Qed.

(* ----------------------------------------------------------------- *)
(** ** Failing folders *)

Lemma range_from_app (a : Z) (m1 m2 : nat) :
  range_from a (m1 + m2)
  = range_from a m1 ++ range_from (a + Z.of_nat m1) m2.
Proof.
  revert a. induction m1 as [| m1 IH]; intros a.
  - simpl. now rewrite Z.add_0_r.
  - cbn [Nat.add range_from app]. rewrite IH.
    replace (a + 1 + Z.of_nat m1)%Z with (a + Z.of_nat (S m1))%Z by lia.
    reflexivity.
Qed.

Lemma range_split (m i : Z) :
  (0 <= i < m)%Z ->
  range m = range i ++ i :: range_from (i + 1) (Z.to_nat (m - i - 1)).
Proof.
  intros Hi. unfold range.
  replace (Z.to_nat m) with (Z.to_nat i + S (Z.to_nat (m - i - 1)))%nat
    by lia.
  rewrite range_from_app. cbn [range_from].
  replace (0 + Z.of_nat (Z.to_nat i))%Z with i by lia. reflexivity.
Qed.

Lemma readable_prefix_all {A : Type} (get : Z -> Res A) (l : list Z) :
  (forall j, In j l -> exists a, get j = Ok a) ->
  readable_prefix get l = l.
Proof.
  induction l as [| j l IH]; intros Hall; simpl; [reflexivity |].
  destruct (Hall j (or_introl eq_refl)) as [a ->].
  rewrite IH; [reflexivity |]. intros j' Hj'. apply Hall. now right.
Qed.

Lemma readable_prefix_stop {A : Type} (get : Z -> Res A) (l1 l2 : list Z)
    (i : Z) (e : exn) :
  (forall j, In j l1 -> exists a, get j = Ok a) ->
  get i = Raise e ->
  readable_prefix get (l1 ++ i :: l2) = l1.
Proof.
  intros Hall Hi. induction l1 as [| j l1 IH]; simpl.
  - now rewrite Hi.
  - destruct (Hall j (or_introl eq_refl)) as [a ->].
    rewrite IH; [reflexivity |]. intros j' Hj'. apply Hall. now right.
Qed.

(** C5, as the code has it. The walk of a folder never raises and keeps
    the records that were there. When the message count cannot be read
    the folder leaves both sinks as they were. When the failure comes
    later, what the folder has emitted stays: its messages when the
    sub-folder count cannot be read; its messages and its sub-folders
    before [i] when sub-folder [i] cannot be retrieved, the sub-folders
    from [i] on being skipped. When there is room for a nested call and
    all the sub-folders of a folder can be retrieved, each one
    contributes its own records within the room that is left, whatever
    fails inside another one. When there is no room, the first call of
    line 127 raises [RecursionError], which cuts the loop over the
    sub-folders like any other failure: the folder keeps its messages
    and none of its sub-folders is walked. *)
Theorem failing_folder_is_cut_short (room : nat) (folder : Folder)
    (s : Sinks) :
  fst (process_pst_folder room folder s) = Ok tt
  /\ (exists appended,
         emails (snd (process_pst_folder room folder s))
         = emails s ++ appended)
  /\ (forall e,
         get_number_of_sub_messages folder = Raise e ->
         process_pst_folder room folder s = (Ok tt, s))
  /\ (forall n e,
         get_number_of_sub_messages folder = Ok n ->
         get_number_of_sub_folders folder = Raise e ->
         process_pst_folder room folder s
         = (Ok tt, snd (message_loop folder n s)))
  /\ (forall room' n m i e,
         room = S room' ->
         get_number_of_sub_messages folder = Ok n ->
         get_number_of_sub_folders folder = Ok m ->
         (0 <= i < m)%Z ->
         get_sub_folder folder i = Raise e ->
         (forall j, (0 <= j < i)%Z ->
                    exists sub_folder, get_sub_folder folder j = Ok sub_folder) ->
         emails (snd (process_pst_folder room folder s))
         = emails s ++ flat_map (message_record folder) (range n)
           ++ flat_map (sub_records_within room' folder) (range i))
  /\ (forall room' n m,
         room = S room' ->
         get_number_of_sub_messages folder = Ok n ->
         get_number_of_sub_folders folder = Ok m ->
         (forall j, (0 <= j < m)%Z ->
                    exists sub_folder, get_sub_folder folder j = Ok sub_folder) ->
         emails (snd (process_pst_folder room folder s))
         = emails s ++ flat_map (message_record folder) (range n)
           ++ flat_map (sub_records_within room' folder) (range m))
  /\ (forall room' j sub_folder,
         get_sub_folder folder j = Ok sub_folder ->
         sub_records_within room' folder j
         = records_within room' sub_folder)
  /\ (forall n m,
         room = O ->
         get_number_of_sub_messages folder = Ok n ->
         get_number_of_sub_folders folder = Ok m ->
         process_pst_folder room folder s
         = (Ok tt, snd (message_loop folder n s))).
Proof.
  destruct (process_pst_folder_emails room folder s) as [Hok Hemails].
  split; [exact Hok |].
  split; [now exists (records_within room folder) |].
  split; [| split; [| split; [| split; [| split]]]].
  - intros e He. rewrite process_pst_folder_eq.
    unfold try_exceptM, folder_body, bindM, call. now rewrite He.
  - intros n e Hn He. rewrite process_pst_folder_eq.
    unfold try_exceptM, folder_body, bindM, call. rewrite Hn, He.
    unfold message_loop.
    destruct (messages_emails folder (range n) s) as [Hloop _].
    destruct (for_each (range n) (message_iteration folder) s) as [r s1].
    simpl in Hloop. now subst r.
  - intros room' n m i e -> Hn Hm Hi He Hbefore.
    rewrite Hemails, records_within_eq, Hn, Hm.
    rewrite (range_split m i Hi).
    rewrite (readable_prefix_stop _ _ _ _ e); [reflexivity | | exact He].
    intros j Hj. apply Hbefore. now apply range_In.
  - intros room' n m -> Hn Hm Hall.
    rewrite Hemails, records_within_eq, Hn, Hm.
    rewrite readable_prefix_all; [reflexivity |].
    intros j Hj. apply Hall. now apply range_In.
  - intros room' j sub_folder Hsub. unfold sub_records_within, sub_built.
    now rewrite Hsub.
  - intros n m -> Hn Hm. rewrite process_pst_folder_eq.
    unfold try_exceptM, folder_body, bindM, call. rewrite Hn, Hm.
    unfold message_loop.
    destruct (messages_emails folder (range n) s) as [Hloop _].
    destruct (for_each (range n) (message_iteration folder) s) as [r s1].
    simpl in Hloop. subst r. cbn [snd].
    pose proof (sub_folders_no_room folder (range m) s1) as Hsubs.
    destruct (for_each (range m) (sub_folder_iteration 0 folder) s1)
      as [[[] | e] s2]; simpl in Hsubs; now subst s2.
Qed.

(* ----------------------------------------------------------------- *)
(** ** The empty result *)

Lemma no_messages_built (folder : Folder) :
  no_messages folder -> forall room, built_within room folder = [].
Proof.
  induction 1 as [folder Hcount _ IH]. intros room.
  rewrite built_within_eq, Hcount. cbn [range range_from Z.to_nat flat_map
    app].
  destruct (get_number_of_sub_folders folder) as [m | e], room as [| room];
    try reflexivity.
  induction (readable_prefix (get_sub_folder folder) (range m))
    as [| i rest IHrest]; [reflexivity |].
  cbn [flat_map]. rewrite IHrest, app_nil_r. unfold sub_built.
  destruct (get_sub_folder folder i) as [g | e] eqn:Hg; [| reflexivity].
  now apply (IH i g Hg).
Qed.

Lemma analyze_pst_accepted (env : Env) (file : FileStorage) :
  (content_length env <= MAX_CONTENT_LENGTH)%Z ->
  request_file env = Some file ->
  accepted file ->
  analyze_pst env = extract env file.
Proof.
  intros Hlength Hfile (Hname & Hpst & Hsize). unfold analyze_pst.
  destruct (Z.ltb_spec MAX_CONTENT_LENGTH (content_length env)); [lia |].
  rewrite Hfile, Hname, Hpst. simpl.
  destruct (Z.ltb_spec MAX_FILE_SIZE (size file)); [lia | reflexivity].
Qed.

(** [extract] stage by stage: the answer of the stages unless the
    [finally] raises. *)
Lemma extract_eq (env : Env) (file : FileStorage) :
  extract env file
  = match remove_temp env with
    | Ok _ => staged_answer env file
    | Raise _ => mkResponse NotJson 500 (csv_file (staged_answer env file))
    end.
Proof.
  assert (Hstaged :
    match (save file ;; pst_open (pst env) ;;
           root <- get_root_folder (pst env) ;;
           table <- writerow (mkStringIO false []) header_row ;;
           Ok (root, table))%res with
    | Raise e => mkResponse (JError (exn_str e)) 500 None
    | Ok (root, table) =>
        match process_pst_folder (recursion_room env) root
                                 (mkSinks [] table) with
        | (Raise e, _) => mkResponse (JError (exn_str e)) 500 None
        | (Ok _, sinks) =>
            match pst_close (pst env) with
            | Raise e => mkResponse (JError (exn_str e)) 500 None
            | Ok _ =>
                if Nat.eqb (List.length (emails sinks)) 0
                then mkResponse
                       (JError (lit "No emails found in PST file")) 400 None
                else
                  match write_file env
                          (UPLOAD_FOLDER ++ lit "/"
                           ++ (lit "extracted_emails_" ++ now_export env
                               ++ lit ".csv"))
                          (getvalue (csv_data sinks)) with
                  | NotOpened e => mkResponse (JError (exn_str e)) 500 None
                  | WriteFailed e partial =>
                      mkResponse (JError (exn_str e)) 500
                        (Some (UPLOAD_FOLDER ++ lit "/"
                               ++ (lit "extracted_emails_" ++ now_export env
                                   ++ lit ".csv"), partial))
                  | FileWritten =>
                      mkResponse
                        (JEmails (emails sinks)
                           (lit "/download/"
                            ++ (lit "extracted_emails_" ++ now_export env
                                ++ lit ".csv")))
                        200
                        (Some (UPLOAD_FOLDER ++ lit "/"
                               ++ (lit "extracted_emails_" ++ now_export env
                                   ++ lit ".csv"),
                               getvalue (csv_data sinks)))
                  end
            end
        end
    end = staged_answer env file).
  { unfold staged_answer. cbv zeta.
    destruct (save file) as [[] | e]; [| reflexivity].
    destruct (pst_open (pst env)) as [[] | e]; [| reflexivity].
    destruct (get_root_folder (pst env)) as [root | e]; [| reflexivity].
    cbn [bindR writerow closed getvalue]. cbn [app].
    destruct (process_pst_folder_emails (recursion_room env) root
                (mkSinks [] (mkStringIO false (csv_line header_row))))
      as [Hok Hemails].
    destruct (process_pst_folder_table (recursion_room env) root
                (mkSinks [] (mkStringIO false (csv_line header_row)))
                eq_refl) as [_ Hvalue].
    destruct (process_pst_folder (recursion_room env) root
                (mkSinks [] (mkStringIO false (csv_line header_row))))
      as [r sinks]. cbn [fst snd emails csv_data getvalue app] in *.
    subst r. destruct (pst_close (pst env)) as [[] | e]; [| reflexivity].
    rewrite Hemails, Hvalue.
    fold (csv_payload (recursion_room env) root).
    fold (csv_filename env). fold (csv_path env). fold (csv_url_of env).
    destruct (records_within (recursion_room env) root); reflexivity. }
  unfold extract. cbv zeta. rewrite Hstaged. reflexivity.
Qed.

(** C9. For a request that comes to the walk (its body is within the
    limit of the framework, the upload passes the checks and is saved,
    the archive is opened, walked and closed, and the saved upload is
    removed at the end), a walk that leaves no record in [emails] is
    answered by the error [No emails found in PST file] with status 400;
    the walk of a tree without any message leaves no record, whatever
    its room; an archive that cannot be opened is answered with status
    500 and the text of its exception, so the two differ; and a walk
    that leaves records is answered with status 200 and these records
    whatever failed inside the tree. The function answers every
    request. *)
Theorem empty_result_is_reported (env : Env) (file : FileStorage) :
  (content_length env <= MAX_CONTENT_LENGTH)%Z ->
  request_file env = Some file ->
  accepted file ->
  save file = Ok tt ->
  remove_temp env = Ok tt ->
  (forall root,
      pst_open (pst env) = Ok tt ->
      get_root_folder (pst env) = Ok root ->
      pst_close (pst env) = Ok tt ->
      emails (snd (process_pst_folder (recursion_room env) root
                     (mkSinks [] (mkStringIO false (csv_line header_row)))))
      = [] ->
      analyze_pst env
      = mkResponse (JError (lit "No emails found in PST file")) 400 None)
  /\ (forall room root s,
         no_messages root ->
         emails (snd (process_pst_folder room root s)) = emails s)
  /\ (forall e,
         pst_open (pst env) = Raise e ->
         analyze_pst env = mkResponse (JError (exn_str e)) 500 None)
  /\ (forall root,
         pst_open (pst env) = Ok tt ->
         get_root_folder (pst env) = Ok root ->
         pst_close (pst env) = Ok tt ->
         emails (snd (process_pst_folder (recursion_room env) root
                        (mkSinks [] (mkStringIO false
                                       (csv_line header_row)))))
         <> [] ->
         write_file env (csv_path env)
           (getvalue (csv_data
              (snd (process_pst_folder (recursion_room env) root
                      (mkSinks [] (mkStringIO false
                                     (csv_line header_row)))))))
         = FileWritten ->
         status (analyze_pst env) = 200%Z
         /\ json (analyze_pst env)
            = JEmails
                (emails (snd (process_pst_folder (recursion_room env) root
                                (mkSinks [] (mkStringIO false
                                               (csv_line header_row))))))
                (csv_url_of env)).
Proof.
  intros Hlength Hfile Haccepted Hsave Hremove.
  rewrite (analyze_pst_accepted env file Hlength Hfile Haccepted).
  rewrite extract_eq, Hremove. unfold staged_answer. cbv zeta.
  rewrite Hsave.
  split; [| split; [| split]].
  - intros root Hopen Hroot Hclose Hempty.
    destruct (process_pst_folder_emails (recursion_room env) root
                (mkSinks [] (mkStringIO false (csv_line header_row))))
      as [_ Hemails].
    rewrite Hemails in Hempty. cbn [emails app] in Hempty.
    now rewrite Hopen, Hroot, Hclose, Hempty.
  - intros room root s Hnone.
    destruct (process_pst_folder_emails room root s) as [_ ->].
    unfold records_within. rewrite (no_messages_built root Hnone).
    now rewrite app_nil_r.
  - intros e Hopen. now rewrite Hopen.
  - intros root Hopen Hroot Hclose.
    destruct (process_pst_folder_emails (recursion_room env) root
                (mkSinks [] (mkStringIO false (csv_line header_row))))
      as [_ Hemails].
    destruct (process_pst_folder_table (recursion_room env) root
                (mkSinks [] (mkStringIO false (csv_line header_row)))
                eq_refl) as [_ Hvalue].
    rewrite Hemails, Hvalue. cbn [emails csv_data getvalue app].
    fold (csv_payload (recursion_room env) root).
    intros Hrecords Hwrite. rewrite Hopen, Hroot, Hclose, Hwrite.
    destruct (records_within (recursion_room env) root);
      [congruence |]. split; reflexivity.
Qed.

(* ----------------------------------------------------------------- *)
(** ** Reading back what the writer wrote *)

Lemma csv_special_false (c : N) :
  csv_special c = false ->
  (c =? 44) = false /\ (c =? 34) = false /\ (c =? 13) = false
  /\ (c =? 10) = false.
Proof.
  unfold csv_special. intros H.
  repeat (apply orb_false_elim in H as [H ?]). tauto.
Qed.

(** A character is added to a field that stays within the limit. *)
Lemma parse_add_char_fits (st st' : ParserState) (c : N) (f t : pystr)
    (fs : list pystr) :
  N.of_nat (List.length (f ++ c :: t)) <= field_limit ->
  parse_add_char st c (mkReader st' f fs)
  = Some (mkReader st (f ++ [c]) fs).
Proof.
  intros Hfits. unfold parse_add_char. cbn [field fields].
  rewrite length_app in Hfits. cbn [List.length] in Hfits.
  destruct (N.ltb_spec (N.of_nat (List.length f)) field_limit);
    [reflexivity | lia].
Qed.

(** Characters that need no quotes, read inside an unquoted field. *)
Lemma read_plain (t : pystr) (f : pystr) (fs : list pystr)
    (rows : list (list pystr)) (rest : pystr) :
  existsb csv_special t = false ->
  N.of_nat (List.length (f ++ t)) <= field_limit ->
  read_text (mkReader IN_FIELD f fs) rows (t ++ rest)
  = read_text (mkReader IN_FIELD (f ++ t) fs) rows rest.
Proof.
  revert f. induction t as [| c t IH]; intros f Hplain Hfits.
  - now rewrite app_nil_r.
  - simpl in Hplain. apply orb_false_elim in Hplain as [Hc Ht].
    apply csv_special_false in Hc as (H44 & H34 & H13 & H10).
    cbn [app read_text parse_process_char state]. unfold is_newline.
    rewrite H44, H13, H10. cbn [orb].
    rewrite (parse_add_char_fits IN_FIELD IN_FIELD c f t fs Hfits).
    rewrite IH; [now rewrite <- app_assoc | assumption |].
    now rewrite <- app_assoc.
Qed.

(** The body of a quoted field, read inside the quotes. *)
Lemma read_quoted (t : pystr) (f : pystr) (fs : list pystr)
    (rows : list (list pystr)) (rest : pystr) :
  N.of_nat (List.length (f ++ t)) <= field_limit ->
  read_text (mkReader IN_QUOTED_FIELD f fs) rows
            (flat_map (fun c => if c =? 34 then [34; 34] else [c]) t
             ++ rest)
  = read_text (mkReader IN_QUOTED_FIELD (f ++ t) fs) rows rest.
Proof.
  revert f. induction t as [| c t IH]; intros f Hfits.
  - now rewrite app_nil_r.
  - assert (Hrest : N.of_nat (List.length ((f ++ [c]) ++ t))
                    <= field_limit) by now rewrite <- app_assoc.
    cbn [flat_map]. destruct (N.eqb_spec c 34) as [-> | Hquote].
    + cbn [app read_text parse_process_char state N.eqb Pos.eqb field
           fields].
      rewrite (parse_add_char_fits IN_QUOTED_FIELD QUOTE_IN_QUOTED_FIELD
                 34 f t fs Hfits).
      cbn [N.eqb Pos.eqb]. rewrite IH by assumption.
      now rewrite <- app_assoc.
    + cbn [app read_text parse_process_char state].
      apply N.eqb_neq in Hquote. rewrite Hquote.
      rewrite (parse_add_char_fits IN_QUOTED_FIELD IN_QUOTED_FIELD
                 c f t fs Hfits).
      destruct (N.eqb_spec c 10) as [-> | Hnl].
      * cbn [parse_process_char state]. rewrite IH by assumption.
        now rewrite <- app_assoc.
      * rewrite IH by assumption. now rewrite <- app_assoc.
Qed.

Lemma fits_field_le (t : pystr) :
  fits_field t = true -> N.of_nat (List.length ([] ++ t)) <= field_limit.
Proof. intros H. now apply N.leb_le in H. Qed.

(** A written field and the delimiter after it. *)
Lemma read_field_delimiter (nfields : nat) (v : PyVal) (st : ParserState)
    (fs : list pystr) (rows : list (list pystr)) (rest : pystr) :
  fits_field (csv_text v) = true ->
  st = START_RECORD \/ st = START_FIELD ->
  read_text (mkReader st [] fs) rows (csv_field nfields v ++ 44 :: rest)
  = read_text (mkReader START_FIELD [] (fs ++ [csv_text v])) rows rest.
Proof.
  intros Hfits Hst. apply fits_field_le in Hfits. unfold csv_field.
  destruct (existsb csv_special (csv_text v)) eqn:Hplain; cbn [orb].
  - unfold csv_quote. rewrite <- !app_assoc.
    destruct Hst as [-> | ->];
      cbn [app read_text parse_process_char state is_newline N.eqb Pos.eqb
           orb field fields];
      rewrite read_quoted by assumption; reflexivity.
  - destruct (Nat.eqb nfields 1 && Nat.eqb (List.length (csv_text v)) 0)
      eqn:Hlone.
    + apply andb_prop in Hlone as [_ Hempty].
      apply Nat.eqb_eq in Hempty.
      destruct (csv_text v) as [| c t]; [| discriminate].
      destruct Hst as [-> | ->]; reflexivity.
    + clear Hlone. destruct (csv_text v) as [| c t].
      * destruct Hst as [-> | ->]; reflexivity.
      * simpl in Hplain. apply orb_false_elim in Hplain as [Hc Ht].
        apply csv_special_false in Hc as (H44 & H34 & H13 & H10).
        destruct Hst as [-> | ->];
          cbn [app read_text parse_process_char state]; unfold is_newline;
          rewrite H44, H34, H13, H10; cbn [orb];
          rewrite (parse_add_char_fits IN_FIELD _ c [] t fs Hfits);
          cbn [app]; rewrite (read_plain t [c]) by assumption;
          reflexivity.
Qed.

(** A written field and the line terminator after it. At the start of a
    record the field is the only one of its row, which the writer quotes
    when it is empty. *)
Lemma read_field_terminator (nfields : nat) (v : PyVal) (st : ParserState)
    (fs : list pystr) (rows : list (list pystr)) (rest : pystr) :
  fits_field (csv_text v) = true ->
  st = START_FIELD \/ (st = START_RECORD /\ nfields = 1%nat) ->
  read_text (mkReader st [] fs) rows
            (csv_field nfields v ++ 13 :: 10 :: rest)
  = read_text parse_reset (rows ++ [fs ++ [csv_text v]]) rest.
Proof.
  intros Hfits Hst. apply fits_field_le in Hfits. unfold csv_field.
  destruct (existsb csv_special (csv_text v)) eqn:Hplain; cbn [orb].
  - unfold csv_quote. rewrite <- !app_assoc.
    destruct Hst as [-> | [-> _]];
      cbn [app read_text parse_process_char state is_newline N.eqb Pos.eqb
           orb field fields];
      rewrite read_quoted by assumption; reflexivity.
  - destruct (csv_text v) as [| c t].
    + destruct Hst as [-> | [-> ->]]; [| reflexivity].
      destruct (Nat.eqb nfields 1); reflexivity.
    + rewrite andb_comm. cbn [List.length Nat.eqb andb].
      simpl in Hplain. apply orb_false_elim in Hplain as [Hc Ht].
      apply csv_special_false in Hc as (H44 & H34 & H13 & H10).
      destruct Hst as [-> | [-> _]];
        cbn [app read_text parse_process_char state]; unfold is_newline;
        rewrite H44, H34, H13, H10; cbn [orb];
        rewrite (parse_add_char_fits IN_FIELD _ c [] t fs Hfits);
        cbn [app]; rewrite (read_plain t [c]) by assumption;
        reflexivity.
Qed.

(** The fields of a row after the first ones, up to the end of the
    line. *)
Lemma read_fields (nfields : nat) (row : list PyVal) (st : ParserState)
    (fs : list pystr) (rows : list (list pystr)) (rest : pystr) :
  row <> [] ->
  forallb (fun v => fits_field (csv_text v)) row = true ->
  st = START_FIELD
  \/ (st = START_RECORD /\ (List.length row = 1%nat -> nfields = 1%nat)) ->
  read_text (mkReader st [] fs) rows
            (join [44] (map (csv_field nfields) row) ++ 13 :: 10 :: rest)
  = read_text parse_reset (rows ++ [fs ++ map csv_text row]) rest.
Proof.
  revert st fs. induction row as [| v row IH]; intros st fs Hrow Hfits Hst.
  - contradiction.
  - cbn [forallb] in Hfits. apply andb_prop in Hfits as [Hv Hfits].
    destruct row as [| v' row'].
    + cbn [map join]. apply read_field_terminator; [assumption |].
      destruct Hst as [-> | [-> Hlone]]; [now left | right].
      split; [reflexivity | now apply Hlone].
    + change (join [44] (map (csv_field nfields) (v :: v' :: row')))
        with (csv_field nfields v
              ++ [44] ++ join [44] (map (csv_field nfields) (v' :: row'))).
      rewrite <- !app_assoc. cbn [app].
      rewrite read_field_delimiter
        by first [ assumption
                 | destruct Hst as [-> | [-> _]]; [now right | now left] ].
      rewrite IH by first [discriminate | assumption | now left].
      cbn [map]. now rewrite <- app_assoc.
Qed.

(** One written line is read back as the texts of its row. *)
Lemma read_csv_line (row : list PyVal) (rows : list (list pystr))
    (rest : pystr) :
  row <> [] ->
  forallb (fun v => fits_field (csv_text v)) row = true ->
  read_text parse_reset rows (csv_line row ++ rest)
  = read_text parse_reset (rows ++ [map csv_text row]) rest.
Proof.
  intros Hrow Hfits. unfold csv_line, parse_reset. rewrite <- app_assoc.
  cbn [app]. rewrite read_fields; [reflexivity | assumption ..|].
  right. split; [reflexivity | tauto].
Qed.

(* ----------------------------------------------------------------- *)
(** ** The two sinks side by side *)

(** Every built message of a walk is built from a message of one of
    the folders of the tree. *)
Lemma built_within_origin (room : nat) :
  forall folder : Folder,
    Forall (fun built =>
              exists folder' i, build_email_data folder' i = Ok built)
           (built_within room folder).
Proof.
  induction room as [| room IH]; intros folder; rewrite built_within_eq;
    destruct (get_number_of_sub_messages folder) as [mc | e];
    try constructor; apply Forall_app; split;
    try (apply Forall_flat_map, Forall_forall; intros i _;
         unfold message_built;
         destruct (build_email_data folder i) eqn:E;
         constructor; [now exists folder, i | constructor]).
  - destruct (get_number_of_sub_folders folder); constructor.
  - destruct (get_number_of_sub_folders folder) as [sc | e];
      [| constructor].
    apply Forall_flat_map, Forall_forall. intros i _. unfold sub_built.
    destruct (get_sub_folder folder i) as [sub | e]; [apply IH | constructor].
Qed.

Lemma csv_text_py_str (v : PyVal) : v <> VNone -> csv_text v = py_str v.
Proof. destruct v; [congruence | reflexivity ..]. Qed.

(** The texts of the row of a message are the fields of its record,
    but for the date column when the delivery time is [None]. *)
Lemma row_of_record (folder : Folder) (i : Z)
    (built : EmailData * list PyVal) :
  build_email_data folder i = Ok built ->
  exists delivery_time,
    nth 4 (snd built) VNone = delivery_time
    /\ email_date (fst built) = py_str delivery_time
    /\ map csv_text (snd built)
       = [email_from (fst built); email_to (fst built);
          email_subject (fst built); email_body (fst built);
          csv_text delivery_time;
          join (lit ", ") (email_attachments (fst built))]
    /\ (delivery_time <> VNone ->
        csv_text delivery_time = email_date (fst built)).
Proof.
  intros H. apply build_email_data_inv in H
    as (message & sender & subject & body & time & headers
        & _ & _ & _ & _ & _ & _ & ->).
  exists time. repeat (split; [reflexivity |]).
  apply csv_text_py_str.
Qed.

(** The texts of the row of a built message are the fields of its
    record, but for the date column when the delivery time is [None]:
    the record has [None] there and the row nothing. *)
Lemma built_row_texts (folder : Folder) (i : Z)
    (built : EmailData * list PyVal) :
  build_email_data folder i = Ok built ->
  List.length (snd built) = 6%nat
  /\ (nth 4 (snd built) VNone <> VNone ->
      map csv_text (snd built) = record_row (fst built))
  /\ (nth 4 (snd built) VNone = VNone ->
      email_date (fst built) = lit "None"
      /\ map csv_text (snd built)
         = [email_from (fst built); email_to (fst built);
            email_subject (fst built); email_body (fst built);
            []; join (lit ", ") (email_attachments (fst built))]).
Proof.
  intros H. apply build_email_data_inv in H
    as (message & sender & subject & body & time & headers
        & _ & _ & _ & _ & _ & _ & ->).
  split; [reflexivity |]. cbn [built_of snd fst nth]. split.
  - intros Htime. unfold record_row. cbn [map email_from email_to
      email_subject email_body email_date email_attachments].
    now rewrite (csv_text_py_str time Htime).
  - intros ->. split; reflexivity.
Qed.

(** The lines written for the rows of built messages are read back as
    the texts of the rows, when the fields are within the limit of the
    reader. *)
Lemma read_table_lines (built : list (EmailData * list PyVal))
    (rows : list (list pystr)) :
  Forall (fun b => snd b <> []) built ->
  forallb (fun b => row_fits (snd b)) built = true ->
  read_text parse_reset rows (table_lines built)
  = Some (rows ++ map (fun b => map csv_text (snd b)) built).
Proof.
  revert rows. induction built as [| b built IH]; intros rows Hrows Hfits.
  - cbn. now rewrite app_nil_r.
  - inversion Hrows; subst. cbn [forallb] in Hfits.
    apply andb_prop in Hfits as [Hb Hfits].
    cbn [table_lines flat_map map].
    rewrite read_csv_line by assumption.
    fold (table_lines built). rewrite IH by assumption.
    now rewrite <- app_assoc.
Qed.

(* ----------------------------------------------------------------- *)
(** ** The shape of the recipient *)

Lemma split_no_sep (sep : N) (s line : pystr) :
  In line (split sep s) -> ~ In sep line.
Proof.
  revert line. induction s as [| c s IH]; intros line; simpl.
  - intros [<- | []]. exact (fun H => H).
  - destruct (N.eqb_spec c sep) as [-> | Hc].
    + intros [<- | H]; [exact (fun H => H) | now apply IH].
    + destruct (split sep s) as [| l lines].
      * intros [<- | []]. intros [H | []]. congruence.
      * intros [<- | H].
        -- intros [H | H]; [congruence |]. apply (IH l); [now left | exact H].
        -- apply IH. now right.
Qed.

Lemma In_skipn {A : Type} (n : nat) (l : list A) (x : A) :
  In x (skipn n l) -> In x l.
Proof.
  revert l. induction n as [| n IH]; intros [| y l]; simpl; auto.
Qed.

(** What [lstrip] removes is white space, and what it leaves does not
    start with white space. *)
Lemma lstrip_split (s : pystr) :
  exists spaces, s = spaces ++ lstrip s /\ forallb isspace spaces = true.
Proof.
  induction s as [| c s (spaces & Hs & Hspaces)]; simpl.
  - now exists [].
  - destruct (isspace c) eqn:Hc.
    + exists (c :: spaces). simpl. rewrite Hc, Hspaces. now rewrite <- Hs.
    + now exists [].
Qed.

Lemma lstrip_head (s : pystr) (c : N) (rest : pystr) :
  lstrip s = c :: rest -> isspace c = false.
Proof.
  induction s as [| d s IH]; simpl; [discriminate |].
  destruct (isspace d) eqn:Hd; [assumption |].
  intros H. injection H as <- _. assumption.
Qed.

Lemma rstrip_split (s : pystr) :
  exists spaces, s = rstrip s ++ spaces.
Proof.
  destruct (lstrip_split (rev s)) as (spaces & Hs & _).
  exists (rev spaces). unfold rstrip.
  rewrite <- rev_app_distr, <- Hs. now rewrite rev_involutive.
Qed.

Lemma In_lstrip (s : pystr) (c : N) : In c (lstrip s) -> In c s.
Proof.
  destruct (lstrip_split s) as (spaces & Hs & _). intros H.
  rewrite Hs. apply in_or_app. now right.
Qed.

Lemma In_strip (s : pystr) (c : N) : In c (strip s) -> In c s.
Proof.
  unfold strip, rstrip. intros H.
  apply In_lstrip. apply in_rev in H. apply In_lstrip in H.
  now apply in_rev in H.
Qed.

Lemma strip_head (s : pystr) (c : N) (rest : pystr) :
  strip s = c :: rest -> isspace c = false.
Proof.
  unfold strip. intros H.
  destruct (rstrip_split (lstrip s)) as (spaces & Hs).
  rewrite H in Hs. apply (lstrip_head s c (rest ++ spaces)). exact Hs.
Qed.

Lemma strip_last (s : pystr) (front : pystr) (c : N) :
  strip s = front ++ [c] -> isspace c = false.
Proof.
  unfold strip, rstrip. intros H.
  apply (f_equal (@rev N)) in H.
  rewrite rev_involutive, rev_app_distr in H. simpl in H.
  exact (lstrip_head _ _ _ H).
Qed.

Lemma scan_lines_origin (lines : list pystr) :
  scan_lines lines = []
  \/ exists line, In line lines /\ scan_lines lines = strip (skipn 3 line).
Proof.
  induction lines as [| line lines IH]; simpl; [now left |].
  destruct (is_to_line line).
  - right. exists line. split; [now left | reflexivity].
  - destruct IH as [IH | (l & Hl & IH)]; [now left | right].
    exists l. split; [now right | assumption].
Qed.

(** X4. The recipient that [process_pst_folder] reads out of the
    transport headers is one trimmed line: it holds no line feed, and it
    neither starts nor ends with white space. *)
Theorem recipient_is_one_trimmed_line (headers : pystr) :
  ~ In 10 (extract_to headers)
  /\ (forall c rest, extract_to headers = c :: rest -> isspace c = false)
  /\ (forall front c,
         extract_to headers = front ++ [c] -> isspace c = false).
Proof.
  unfold extract_to. destruct (truthy (VStr headers)).
  - destruct (scan_lines_origin (split 10 headers))
      as [-> | (line & Hline & ->)].
    + split; [exact (fun H => H) |].
      split; [discriminate |]. intros [| ? ?]; discriminate.
    + split.
      * intros H. apply In_strip, In_skipn in H.
        exact (split_no_sep 10 headers line Hline H).
      * split; [apply strip_head | apply strip_last].
  - split; [exact (fun H => H) |].
    split; [discriminate |]. intros [| ? ?]; discriminate.
Qed.

(* ----------------------------------------------------------------- *)
(** ** Which messages have a record *)

Lemma build_email_data_readable (folder : Folder) (i : Z) :
  raised (build_email_data folder i) = negb (readable_at folder i).
Proof.
  rewrite build_email_data_eq. unfold readable_at, readable.
  destruct (get_sub_message folder i) as [message | e]; [| reflexivity].
  cbn [bindR].
  destruct (get_sender_name message); [| reflexivity].
  destruct (get_subject message); [| reflexivity].
  destruct (get_plain_text_body message); [| reflexivity].
  destruct (get_delivery_time message); [| reflexivity].
  destruct (get_transport_headers message); reflexivity.
Qed.

Lemma message_record_readable (folder : Folder) (i : Z) :
  List.length (message_record folder i)
  = if readable_at folder i then 1%nat else 0%nat.
Proof.
  pose proof (build_email_data_readable folder i) as H.
  unfold message_record.
  destruct (build_email_data folder i), (readable_at folder i);
    try discriminate H; reflexivity.
Qed.

(** X5. A message has a record exactly when it can be retrieved and its
    sender, subject, body, delivery time and transport headers can be
    read: neither its attachments nor the bytes of its fields cost it
    the record. A turn of the message loop on a message that has none
    leaves both sinks as they are, and the messages of a folder give as
    many records as there are readable ones among them. *)
Theorem record_iff_message_is_readable (folder : Folder) (i : Z) :
  (readable_at folder i = true <-> exists built,
                                     build_email_data folder i = Ok built)
  /\ List.length (message_record folder i)
     = (if readable_at folder i then 1%nat else 0%nat)
  /\ (forall s : Sinks,
         readable_at folder i = false ->
         message_iteration folder i s = (Ok tt, s))
  /\ (forall n : Z,
         List.length (flat_map (message_record folder) (range n))
         = List.length (filter (readable_at folder) (range n))).
Proof.
  pose proof (build_email_data_readable folder i) as H.
  split; [| split; [| split]].
  - destruct (build_email_data folder i) as [built | e],
      (readable_at folder i); try discriminate H.
    + split; [intros _; now exists built | reflexivity].
    + split; [discriminate | intros [built Hbuilt]; discriminate].
  - apply message_record_readable.
  - intros s Hi. rewrite message_iteration_eq.
    rewrite Hi in H. destruct (build_email_data folder i);
      [discriminate H | reflexivity].
  - intros n. induction (range n) as [| j indices IH]; [reflexivity |].
    cbn [flat_map filter]. rewrite length_app, message_record_readable, IH.
    destruct (readable_at folder j); reflexivity.
Qed.

(* ----------------------------------------------------------------- *)
(** ** The walk and the two sinks *)

(** X6. A walk with an open table only appends, and to both sinks
    alike: what was in [emails] and in the table stays in front, the
    dicts of the messages that the walk builds within its room are
    appended to [emails] and the lines of their rows to the table, one
    line for one record in the same order; every row has six fields,
    and the table is left open. For a tree that fits the room the
    records are those of the whole tree. *)
Theorem walk_appends_to_both_sinks (room : nat) (folder : Folder)
    (s : Sinks) :
  closed (csv_data s) = false ->
  emails (snd (process_pst_folder room folder s))
  = emails s ++ map fst (built_within room folder)
  /\ getvalue (csv_data (snd (process_pst_folder room folder s)))
     = getvalue (csv_data s)
       ++ flat_map (fun built => csv_line (snd built))
                   (built_within room folder)
  /\ closed (csv_data (snd (process_pst_folder room folder s))) = false
  /\ Forall (fun built => List.length (snd built) = 6%nat)
            (built_within room folder)
  /\ (fits room folder = true ->
      map fst (built_within room folder) = dfs_records folder).
Proof.
  intros Hopen.
  destruct (process_pst_folder_emails room folder s) as [_ Hemails].
  destruct (process_pst_folder_table room folder s Hopen)
    as [Hopen' Hvalue].
  repeat (split; [assumption |]). split.
  - eapply Forall_impl; [| exact (built_within_origin room folder)].
    intros built (folder' & i & Hbuilt).
    now destruct (built_row_texts folder' i built Hbuilt).
  - apply fits_records.
Qed.

(* ----------------------------------------------------------------- *)
(** ** The answers of [analyze_pst] *)

(** The answer at hand does not have the status that is assumed. *)
Ltac other_status :=
  let H := fresh in intros H; cbn [status] in H; discriminate H.

(** The answer at hand is not the one that is assumed. *)
Ltac other_answer :=
  let H := fresh in
  intros H;
  first [ discriminate H
        | injection H as H; vm_compute in H; discriminate H ].

Lemma records_within_run (room : nat) (root : Folder) :
  emails (snd (process_pst_folder room root
                 (mkSinks [] (mkStringIO false (csv_line header_row)))))
  = records_within room root.
Proof.
  now destruct (process_pst_folder_emails room root
                  (mkSinks [] (mkStringIO false (csv_line header_row)))).
Qed.

Lemma analyze_pst_200 (env : Env) :
  status (analyze_pst env) = 200%Z ->
  exists file root, goes_through env file root.
Proof.
  unfold analyze_pst, goes_through, walks, accepted,
    request_entity_too_large.
  destruct (Z.ltb_spec MAX_CONTENT_LENGTH (content_length env))
    as [| Hlength]; [other_status |].
  destruct (request_file env) as [file |]; [| other_status].
  destruct (truthy (VStr (filename file))) eqn:Hname; [| other_status].
  destruct (endswith (filename file) (lit ".pst")) eqn:Hpst;
    [| other_status].
  cbn [negb]. destruct (Z.ltb_spec MAX_FILE_SIZE (size file));
    [other_status |].
  rewrite extract_eq.
  destruct (remove_temp env) as [[] | e] eqn:Hremove; [| other_status].
  unfold staged_answer. cbv zeta.
  destruct (save file) as [[] | e] eqn:Hsave; [| other_status].
  destruct (pst_open (pst env)) as [[] | e] eqn:Hopen; [| other_status].
  destruct (get_root_folder (pst env)) as [root | e] eqn:Hroot;
    [| other_status].
  destruct (pst_close (pst env)) as [[] | e] eqn:Hclose; [| other_status].
  destruct (records_within (recursion_room env) root) as [| r records]
    eqn:Hrecords; [other_status |].
  destruct (write_file env (csv_path env)
              (csv_payload (recursion_room env) root))
    as [| e | e partial] eqn:Hwrite; [| other_status | other_status].
  intros _. exists file, root. rewrite Hrecords.
  repeat split; try assumption; try reflexivity; discriminate.
Qed.

Lemma analyze_pst_success (env : Env) (file : FileStorage) (root : Folder) :
  goes_through env file root ->
  analyze_pst env
  = mkResponse (JEmails (records_within (recursion_room env) root)
                        (csv_url_of env))
               200
               (Some (csv_path env, csv_payload (recursion_room env) root)).
Proof.
  intros ((Hlength & Hfile & Haccepted & Hsave & Hopen & Hroot & Hclose)
          & Hrecords & Hwrite & Hremove).
  rewrite (analyze_pst_accepted env file Hlength Hfile Haccepted).
  rewrite extract_eq, Hremove. unfold staged_answer. cbv zeta.
  rewrite Hsave, Hopen, Hroot, Hclose, Hwrite.
  destruct (records_within (recursion_room env) root);
    [contradiction | reflexivity].
Qed.

(** X7. The two sinks of a request that succeeds. The records of the
    response are the dicts of the messages that the walk builds within
    its room, in their order; when no field is longer than the limit of
    the reader, the CSV file is read back as the header row followed by
    one row for each record, in the same order; every row has six
    fields, and the texts of a row are the fields of its record when
    the message has a delivery time, while for a message without one the
    record has the date [None] and the row an empty date. *)
Theorem sinks_side_by_side (env : Env) :
  status (analyze_pst env) = 200%Z ->
  exists root,
    get_root_folder (pst env) = Ok root
    /\ analyze_pst env
       = mkResponse
           (JEmails (map fst (built_within (recursion_room env) root))
                    (csv_url_of env))
           200
           (Some (csv_path env, csv_payload (recursion_room env) root))
    /\ (forallb (fun built => row_fits (snd built))
                (built_within (recursion_room env) root) = true ->
        csv_reader (csv_payload (recursion_room env) root)
        = Some (map csv_text header_row
                :: map (fun built => map csv_text (snd built))
                       (built_within (recursion_room env) root)))
    /\ Forall (fun built =>
                 List.length (snd built) = 6%nat
                 /\ (nth 4 (snd built) VNone <> VNone ->
                     map csv_text (snd built) = record_row (fst built))
                 /\ (nth 4 (snd built) VNone = VNone ->
                     email_date (fst built) = lit "None"
                     /\ nth 4 (map csv_text (snd built)) [] = []))
              (built_within (recursion_room env) root).
Proof.
  intros H. apply analyze_pst_200 in H as (file & root & H).
  exists root. rewrite (analyze_pst_success env file root H).
  destruct H as ((_ & _ & _ & _ & _ & Hroot & _) & _).
  split; [assumption |]. split; [reflexivity |].
  pose proof (built_within_origin (recursion_room env) root) as Horigin.
  split.
  - intros Hfits. unfold csv_reader, csv_payload.
    rewrite read_csv_line by (discriminate || reflexivity).
    apply read_table_lines; [| assumption].
    eapply Forall_impl; [| exact Horigin].
    intros built (folder' & i & Hbuilt).
    destruct (built_row_texts folder' i built Hbuilt) as (Hlength & _).
    intros Hempty. now rewrite Hempty in Hlength.
  - eapply Forall_impl; [| exact Horigin].
    intros built (folder' & i & Hbuilt).
    destruct (built_row_texts folder' i built Hbuilt)
      as (Hlength & Hdated & Hnone).
    split; [assumption |]. split; [assumption |]. intros Htime.
    destruct (Hnone Htime) as [Hdate Hrow]. split; [assumption |].
    now rewrite Hrow.
Qed.

(** X8. A request is answered with status 200 exactly when it goes
    through every stage: its body is within the limit of the framework,
    the upload passes the checks and is saved, the archive is opened,
    walked and closed, the walk yields a record within its room, the CSV
    file is written and the saved upload removed. The answer then
    carries the records of the walk, the URL of the file, and the file
    under [uploads/]. *)
Theorem request_succeeds_iff (env : Env) :
  (status (analyze_pst env) = 200%Z
   <-> exists file root, goes_through env file root)
  /\ (forall file root,
         goes_through env file root ->
         analyze_pst env
         = mkResponse (JEmails (records_within (recursion_room env) root)
                               (csv_url_of env))
                      200
                      (Some (csv_path env,
                             csv_payload (recursion_room env) root))
         /\ records_within (recursion_room env) root
            = emails (snd (process_pst_folder (recursion_room env) root
                             (mkSinks [] (mkStringIO false
                                            (csv_line header_row))))))
  /\ (forall file root,
         goes_through env file root <->
         walks env file root
         /\ records_within (recursion_room env) root <> []
         /\ write_file env (csv_path env)
                       (csv_payload (recursion_room env) root)
            = FileWritten
         /\ remove_temp env = Ok tt).
Proof.
  split; [split |].
  - apply analyze_pst_200.
  - intros (file & root & H).
    now rewrite (analyze_pst_success env file root H).
  - split; [| reflexivity]. intros file root H.
    split; [now apply analyze_pst_success with file |].
    now rewrite records_within_run.
Qed.

(** The answers of a request whose body is over the limit, that has no
    file, or whose upload fails a check. *)
Ltac plain_error :=
  right; left; do 2 eexists; split; [reflexivity | simpl; tauto].

(** X9. Every answer of [analyze_pst] is of one of four kinds: status
    200 with a list of records that is not empty and the CSV file
    written in full; an error text with status 400, 413 or 500 and no
    CSV file; an error text with status 500 and the part of the CSV file
    that was written when the write failed; or, when removing the saved
    upload raises, the error page of the framework with status 500. *)
Theorem answer_is_records_or_error (env : Env) :
  (exists records url path payload,
      analyze_pst env
      = mkResponse (JEmails records url) 200 (Some (path, payload))
      /\ records <> []
      /\ write_file env path payload = FileWritten)
  \/ (exists error code,
         analyze_pst env = mkResponse (JError error) code None
         /\ In code [400; 413; 500]%Z)
  \/ (exists error path partial,
         analyze_pst env
         = mkResponse (JError error) 500 (Some (path, partial))
         /\ exists e payload,
              write_file env path payload = WriteFailed e partial)
  \/ (exists file,
         analyze_pst env = mkResponse NotJson 500 file
         /\ exists e, remove_temp env = Raise e).
Proof.
  unfold analyze_pst, request_entity_too_large.
  destruct (MAX_CONTENT_LENGTH <? content_length env)%Z; [plain_error |].
  destruct (request_file env) as [file |]; [| plain_error].
  destruct (negb (truthy (VStr (filename file)))); [plain_error |].
  destruct (negb (endswith (filename file) (lit ".pst"))); [plain_error |].
  destruct (MAX_FILE_SIZE <? size file)%Z; [plain_error |].
  rewrite extract_eq.
  destruct (remove_temp env) as [[] | e];
    [| right; right; right; eexists; split;
       [reflexivity | now exists e]].
  unfold staged_answer. cbv zeta.
  destruct (save file) as [[] | e]; [| plain_error].
  destruct (pst_open (pst env)) as [[] | e]; [| plain_error].
  destruct (get_root_folder (pst env)) as [root | e]; [| plain_error].
  destruct (pst_close (pst env)) as [[] | e]; [| plain_error].
  destruct (records_within (recursion_room env) root) as [| r records];
    [plain_error |].
  destruct (write_file env (csv_path env)
              (csv_payload (recursion_room env) root))
    as [| e | e partial] eqn:Hwrite; [| plain_error |].
  - left. do 4 eexists. split; [reflexivity |].
    split; [discriminate | exact Hwrite].
  - right. right. left. do 3 eexists. split; [reflexivity |].
    do 2 eexists. exact Hwrite.
Qed.

(** X10. A request that does not come past the checks is answered from
    the name and the size of the upload and the length of the body
    alone, whatever the archive, the clock and the disk are. A body over
    [MAX_CONTENT_LENGTH] is answered by the handler of status 413; below
    that, an upload that fails a check is answered with status 413 when
    its name passes and its size is over [MAX_FILE_SIZE], and with
    status 400 otherwise. The answer is an error text, and no file is
    written. *)
Theorem rejected_upload_is_answered_unread (env env' : Env)
    (file file' : FileStorage) :
  request_file env = Some file ->
  request_file env' = Some file' ->
  filename file' = filename file ->
  size file' = size file ->
  form_overhead env' = form_overhead env ->
  (MAX_CONTENT_LENGTH < content_length env)%Z \/ ~ accepted file ->
  analyze_pst env' = analyze_pst env
  /\ csv_file (analyze_pst env) = None
  /\ (exists error, json (analyze_pst env) = JError error)
  /\ status (analyze_pst env)
     = (if (MAX_CONTENT_LENGTH <? content_length env)%Z then 413
        else if truthy (VStr (filename file))
                && endswith (filename file) (lit ".pst")
        then 413 else 400)%Z
  /\ ((MAX_CONTENT_LENGTH < content_length env)%Z ->
      analyze_pst env
      = mkResponse
          (JError (lit "File too large. Maximum allowed size is 100.0MB"))
          413 None)
  /\ (size file <= content_length env)%Z.
Proof.
  intros Hfile Hfile' Hname Hsize Hoverhead Hrejected.
  assert (Hlength : content_length env' = content_length env)
    by (unfold content_length; now rewrite Hfile, Hfile', Hsize, Hoverhead).
  assert (Hbody : (size file <= content_length env)%Z)
    by (unfold content_length; rewrite Hfile; lia).
  unfold analyze_pst, request_entity_too_large.
  rewrite Hlength, Hfile, Hfile', Hname, Hsize.
  destruct (Z.ltb_spec MAX_CONTENT_LENGTH (content_length env))
    as [Hover | Hwithin].
  { repeat split; try assumption; eexists; reflexivity. }
  destruct Hrejected as [Hover | Hrejected]; [lia |].
  destruct (truthy (VStr (filename file))) eqn:Htruthy; cbn [negb andb];
    [| repeat split; try assumption; try lia; eexists; reflexivity].
  destruct (endswith (filename file) (lit ".pst")) eqn:Hpst; cbn [negb];
    [| repeat split; try assumption; try lia; eexists; reflexivity].
  destruct (Z.ltb_spec MAX_FILE_SIZE (size file));
    [repeat split; try assumption; try lia; eexists; reflexivity |].
  destruct Hrejected. unfold accepted. tauto.
Qed.

(** X11. For a request that comes past the checks and whose saved
    upload is removed at the end, the answer has status 500 exactly when
    one of the stages raises, and the error is the text of the exception
    of the first stage that does: saving the upload, opening the
    archive, retrieving its root folder, closing the archive, and, when
    the walk has left records, writing the CSV file. No failure inside
    the tree raises. A failed request leaves a CSV file only when the
    write raised after the file was opened, and the file then holds what
    was written of it. *)
Theorem failure_is_reported_with_its_text (env : Env)
    (file : FileStorage) :
  (content_length env <= MAX_CONTENT_LENGTH)%Z ->
  request_file env = Some file ->
  accepted file ->
  remove_temp env = Ok tt ->
  (forall e, fails_with env file e ->
             json (analyze_pst env) = JError (exn_str e)
             /\ status (analyze_pst env) = 500%Z)
  /\ (status (analyze_pst env) = 500%Z -> exists e, fails_with env file e)
  /\ (forall path partial,
         status (analyze_pst env) = 500%Z ->
         csv_file (analyze_pst env) = Some (path, partial) ->
         path = csv_path env
         /\ exists e root,
              get_root_folder (pst env) = Ok root
              /\ write_file env (csv_path env)
                            (csv_payload (recursion_room env) root)
                 = WriteFailed e partial)
  /\ (forall root,
         get_root_folder (pst env) = Ok root ->
         records_within (recursion_room env) root
         = emails (snd (process_pst_folder (recursion_room env) root
                          (mkSinks [] (mkStringIO false
                                         (csv_line header_row)))))).
Proof.
  intros Hlength Hfile Haccepted Hremove.
  rewrite (analyze_pst_accepted env file Hlength Hfile Haccepted).
  rewrite extract_eq, Hremove. unfold staged_answer, fails_with.
  cbv zeta. split; [| split; [| split]].
  - intros e [Hsave | [Hsave [Hopen | [Hopen [Hroot | (root & Hroot & H)]]]]].
    + now rewrite Hsave.
    + now rewrite Hsave, Hopen.
    + now rewrite Hsave, Hopen, Hroot.
    + rewrite Hsave, Hopen, Hroot.
      destruct H as [Hclose | (Hclose & Hrecords & Hwrite)].
      * now rewrite Hclose.
      * rewrite Hclose.
        destruct (records_within (recursion_room env) root);
          [contradiction |].
        destruct Hwrite as [Hwrite | [partial Hwrite]];
          now rewrite Hwrite.
  - destruct (save file) as [[] | e]; [| intros _; exists e; now left].
    destruct (pst_open (pst env)) as [[] | e];
      [| intros _; exists e; right; split; [reflexivity | now left]].
    destruct (get_root_folder (pst env)) as [root | e];
      [| intros _; exists e; right; split; [reflexivity |];
         right; split; [reflexivity | now left]].
    destruct (pst_close (pst env)) as [[] | e].
    + destruct (records_within (recursion_room env) root)
        as [| r records] eqn:Hrecords; [other_status |].
      destruct (write_file env (csv_path env)
                  (csv_payload (recursion_room env) root))
        as [| e | e partial] eqn:Hwrite; [other_status | |];
        intros _; exists e; right; (split; [reflexivity |]);
        right; (split; [reflexivity |]); right; exists root;
        (split; [reflexivity |]); right; (split; [reflexivity |]);
        (split; [rewrite Hrecords; discriminate |]).
      * now left.
      * right. now exists partial.
    + intros _. exists e. right. split; [reflexivity |].
      right. split; [reflexivity |]. right. exists root.
      split; [reflexivity |]. now left.
  - intros path partial.
    destruct (save file) as [[] | e]; [| intros _ H; discriminate H].
    destruct (pst_open (pst env)) as [[] | e];
      [| intros _ H; discriminate H].
    destruct (get_root_folder (pst env)) as [root | e] eqn:Hroot;
      [| intros _ H; discriminate H].
    destruct (pst_close (pst env)) as [[] | e];
      [| intros _ H; discriminate H].
    destruct (records_within (recursion_room env) root)
      as [| r records]; [intros _ H; discriminate H |].
    destruct (write_file env (csv_path env)
                (csv_payload (recursion_room env) root))
      as [| e | e partial'] eqn:Hwrite;
      [other_status | intros _ H; discriminate H |].
    intros _ H. cbn [csv_file] in H. injection H as <- <-.
    split; [reflexivity |]. exists e, root. now split.
  - intros root _. now rewrite records_within_run.
Qed.

(** X14. The error [No emails found in PST file] is the answer to one
    kind of request only: its body is within the limit of the framework,
    the upload passes the checks and is saved, the archive is opened,
    walked and closed, the walk leaves no record in [emails], and the
    saved upload is removed. No other failure is answered with it. *)
Theorem no_emails_answer_iff (env : Env) :
  analyze_pst env
  = mkResponse (JError (lit "No emails found in PST file")) 400 None
  <-> exists file root,
        walks env file root
        /\ emails (snd (process_pst_folder (recursion_room env) root
                          (mkSinks [] (mkStringIO false
                                         (csv_line header_row)))))
           = []
        /\ remove_temp env = Ok tt.
Proof.
  split.
  - unfold analyze_pst, walks, accepted, request_entity_too_large.
    destruct (Z.ltb_spec MAX_CONTENT_LENGTH (content_length env))
      as [| Hlength]; [other_answer |].
    destruct (request_file env) as [file |]; [| other_answer].
    destruct (truthy (VStr (filename file))) eqn:Hname; [| other_answer].
    destruct (endswith (filename file) (lit ".pst")) eqn:Hpst;
      [| other_answer].
    cbn [negb]. destruct (Z.ltb_spec MAX_FILE_SIZE (size file));
      [other_answer |].
    rewrite extract_eq.
    destruct (remove_temp env) as [[] | e] eqn:Hremove; [| other_answer].
    unfold staged_answer. cbv zeta.
    destruct (save file) as [[] | e] eqn:Hsave; [| other_answer].
    destruct (pst_open (pst env)) as [[] | e] eqn:Hopen; [| other_answer].
    destruct (get_root_folder (pst env)) as [root | e] eqn:Hroot;
      [| other_answer].
    destruct (pst_close (pst env)) as [[] | e] eqn:Hclose;
      [| other_answer].
    destruct (records_within (recursion_room env) root) as [| r records]
      eqn:Hrecords.
    + intros _. exists file, root. rewrite records_within_run.
      repeat split; try assumption; reflexivity.
    + destruct (write_file env (csv_path env)
                  (csv_payload (recursion_room env) root))
        as [| e | e partial]; other_answer.
  - intros (file & root
            & (Hlength & Hfile & Haccepted & Hsave & Hopen & Hroot & Hclose)
            & Hrecords & Hremove).
    rewrite records_within_run in Hrecords.
    rewrite (analyze_pst_accepted env file Hlength Hfile Haccepted).
    rewrite extract_eq, Hremove. unfold staged_answer. cbv zeta.
    now rewrite Hsave, Hopen, Hroot, Hclose, Hrecords.
Qed.

(* ----------------------------------------------------------------- *)
(** ** Downloads *)

Lemma startswith_prefix (s p : pystr) :
  startswith s p = true -> s = p ++ skipn (List.length p) s.
Proof.
  revert s. induction p as [| c p IH]; intros s; [reflexivity |].
  destruct s as [| d s]; [discriminate |]. cbn [startswith].
  intros H. apply andb_prop in H as [Hd Hs]. apply N.eqb_eq in Hd.
  subst d. cbn [List.length skipn app]. f_equal. now apply IH.
Qed.

Lemma route_download_inv (url name : pystr) :
  route_download url = Some name ->
  url = lit "/download/" ++ name
  /\ name <> []
  /\ existsb (N.eqb 47) name = false.
Proof.
  unfold route_download.
  destruct (startswith url (lit "/download/")) eqn:Hurl; [| discriminate].
  apply startswith_prefix in Hurl.
  change (List.length (lit "/download/")) with 10%nat in Hurl.
  destruct (skipn 10 url) as [| c rest] eqn:Hname; [discriminate |].
  destruct (existsb (N.eqb 47) (c :: rest)) eqn:Hslash; [discriminate |].
  intros H. injection H as <-.
  split; [assumption |]. split; [discriminate | assumption].
Qed.

Lemma route_download_name (name : pystr) :
  name <> [] ->
  existsb (N.eqb 47) name = false ->
  route_download (lit "/download/" ++ name) = Some name.
Proof.
  intros Hname Hslash. unfold route_download.
  change (startswith (lit "/download/" ++ name) (lit "/download/"))
    with true.
  change (skipn 10 (lit "/download/" ++ name)) with name.
  destruct name as [| c rest]; [contradiction |].
  now rewrite Hslash.
Qed.

Lemma os_path_join_uploads (name : pystr) :
  existsb (N.eqb 47) name = false ->
  os_path_join UPLOAD_FOLDER name = lit "uploads/" ++ name.
Proof.
  intros Hname. unfold os_path_join.
  destruct name as [| c rest]; [reflexivity |].
  cbn [existsb] in Hname. apply orb_false_elim in Hname as [Hc _].
  change (startswith (c :: rest) (lit "/")) with ((c =? 47) && true).
  rewrite N.eqb_sym in Hc. rewrite Hc. reflexivity.
Qed.

(** X12. A download stays in the upload folder: a name that the rule
    [/download/<filename>] hands to [download_file] is not empty and
    holds no slash, the path that [download_file] looks at is that name
    under [uploads/], and its answer depends on nothing of the disk but
    that path. *)
Theorem download_stays_in_uploads (url name : pystr) :
  route_download url = Some name ->
  name <> []
  /\ ~ In 47 name
  /\ os_path_join UPLOAD_FOLDER name = lit "uploads/" ++ name
  /\ (forall disk disk' : Disk,
         os_path_exists disk' (lit "uploads/" ++ name)
         = os_path_exists disk (lit "uploads/" ++ name) ->
         send_file disk' (lit "uploads/" ++ name)
         = send_file disk (lit "uploads/" ++ name) ->
         download_file disk' name = download_file disk name).
Proof.
  intros H. apply route_download_inv in H as (_ & Hname & Hslash).
  split; [assumption |]. split.
  - intros Hin. rewrite <- not_true_iff_false in Hslash. apply Hslash.
    apply existsb_exists. exists 47. split; [assumption | reflexivity].
  - split; [now apply os_path_join_uploads |].
    intros disk disk' Hexists Hsend. unfold download_file.
    rewrite (os_path_join_uploads name Hslash). cbv zeta.
    now rewrite Hexists, Hsend.
Qed.

Lemma stamp_has_no_slash (t : pystr) :
  forallb (fun c => (48 <=? c) && (c <=? 57) || (c =? 95)) t = true ->
  existsb (N.eqb 47) t = false.
Proof.
  induction t as [| c t IH]; [reflexivity |]. cbn [forallb existsb].
  intros H. apply andb_prop in H as [Hc Ht]. rewrite (IH Ht).
  destruct (N.eqb_spec 47 c) as [<- | _]; [discriminate Hc | reflexivity].
Qed.

(** X13. The URL that [analyze_pst] answers with names the file that it
    wrote. The time stamp of line 189 is made of digits and an
    underscore; the rule [/download/<filename>] then takes the name of
    the CSV file out of the URL of the answer, [download_file] joins
    that name to the path that the request wrote to, and its answer is
    decided by that path alone: status 404 when [os.path.exists] does
    not find it, else what [send_file] makes of it, which is the file or
    status 500 with the text of its exception. Nothing more is said of
    the disk: the two look the path up on their own. *)
Theorem csv_url_names_the_file (env : Env) (records : list EmailData)
    (url path payload : pystr) :
  analyze_pst env
  = mkResponse (JEmails records url) 200 (Some (path, payload)) ->
  forallb (fun c => (48 <=? c) && (c <=? 57) || (c =? 95)) (now_export env)
  = true ->
  route_download url = Some (csv_filename env)
  /\ os_path_join UPLOAD_FOLDER (csv_filename env) = path
  /\ write_file env path payload = FileWritten
  /\ (forall disk : Disk,
         download_file disk (csv_filename env)
         = if os_path_exists disk path
           then match send_file disk path with
                | Ok content => Sent content
                | Raise e => NotSent (exn_str e) 500
                end
           else NotSent (lit "File not found") 404).
Proof.
  intros Hanswer Hnow. apply stamp_has_no_slash in Hnow.
  assert (H200 : status (analyze_pst env) = 200%Z) by now rewrite Hanswer.
  apply analyze_pst_200 in H200 as (file & root & H).
  rewrite (analyze_pst_success env file root H) in Hanswer.
  injection Hanswer as _ <- <- <-.
  destruct H as (_ & _ & Hwrite & _).
  assert (Hslash : existsb (N.eqb 47) (csv_filename env) = false).
  { unfold csv_filename. rewrite !existsb_app, Hnow. reflexivity. }
  assert (Hjoin : os_path_join UPLOAD_FOLDER (csv_filename env)
                  = csv_path env)
    by now rewrite (os_path_join_uploads _ Hslash).
  split; [apply route_download_name; [discriminate | assumption] |].
  split; [assumption |]. split; [assumption |].
  intros disk. unfold download_file. rewrite Hjoin. cbv zeta.
  now destruct (os_path_exists disk (csv_path env)).
Qed.

End Extraction.

(* ================================================================= *)
(** * The theorems on archives *)

(** C3, at an archive whose only message has no delivery time. The
    request succeeds; the record has the date [None]; the table read
    back is the header row and one row of six fields, and the date field
    of that row is empty: the two sinks differ. *)
Theorem absent_date_differs_between_sinks :
  exists email url path payload row,
    analyze_pst no_case_table
                (env_of (archive_of (folder_of [Ok undated_message] [])))
    = mkResponse (JEmails [email] url) 200 (Some (path, payload))
    /\ csv_reader payload = Some [map csv_text header_row; row]
    /\ List.length row = 6%nat
    /\ email_date email = lit "None"
    /\ nth 4 row [] = []
    /\ nth 4 row [] <> email_date email.
Proof.
  do 5 eexists.
  split; [vm_compute; reflexivity |].
  split; [vm_compute; reflexivity |].
  split; [reflexivity |].
  split; [reflexivity |].
  split; [reflexivity | discriminate].
Qed.

(** The closed writer refuses the row of the message, and the record of
    the message is in [emails] all the same. *)
Lemma failed_row_keeps_the_record :
  exists built e,
    build_email_data no_case_table one_message_folder 0 = Ok built
    /\ writerow closed_file (snd built) = Raise e
    /\ emails (snd (message_iteration no_case_table one_message_folder 0
                      (mkSinks [] closed_file)))
       = [fst built]
    /\ csv_data (snd (message_iteration no_case_table one_message_folder 0
                        (mkSinks [] closed_file)))
       = closed_file.
Proof.
  do 2 eexists.
  split; [reflexivity |].
  split; [reflexivity |].
  split; reflexivity.
Qed.

(** The sub-folder count of the folder cannot be read, and the message
    of the folder is in both sinks all the same. *)
Lemma failed_folder_keeps_its_messages :
  exists e,
    get_number_of_sub_folders half_read_folder = Raise e
    /\ List.length
         (emails (snd (process_pst_folder no_case_table recursion_limit
                         half_read_folder
                         (mkSinks [] (mkStringIO false [])))))
       = 1%nat
    /\ getvalue
         (csv_data (snd (process_pst_folder no_case_table recursion_limit
                           half_read_folder
                           (mkSinks [] (mkStringIO false [])))))
       = csv_line [VStr (lit "bob"); VStr []; VStr (lit "minutes");
                   VStr (lit "see the file");
                   VDatetime (mkDatetime 2024 1 2 3 4 5 0); VStr []].
Proof.
  eexists.
  split; [reflexivity |].
  split; vm_compute; reflexivity.
Qed.

(** The record of the chain of 1500 folders lies below the recursion
    limit: the traversal of the tree holds it, the walk with no more
    room than the limit leaves no record, and the request is answered
    as if the archive held no message. With room for 1500 nested calls
    the same tree gives its record: the records are not fixed by the
    tree alone. *)
Lemma deep_chain_loses_its_record :
  map email_from (dfs_records no_case_table deep_chain) = [lit "bob"]
  /\ emails (snd (process_pst_folder no_case_table recursion_limit
                    deep_chain (mkSinks [] (mkStringIO false []))))
     = []
  /\ analyze_pst no_case_table (env_of (archive_of deep_chain))
     = mkResponse (JError (lit "No emails found in PST file")) 400 None
  /\ emails (snd (process_pst_folder no_case_table 1500 deep_chain
                    (mkSinks [] (mkStringIO false []))))
     = dfs_records no_case_table deep_chain.
Proof.
  split; [vm_compute; reflexivity |].
  split; [vm_compute; reflexivity |].
  split; vm_compute; reflexivity.
Qed.

(* ----------------------------------------------------------------- *)
(** ** Instances *)


(** The walk of [ordered_tree]: the two messages of the root folder
    that can be built, in index order, then the first sub-folder with
    its own sub-folder, then the second sub-folder. With room for one
    nested call, the sub-folder of the first sub-folder is not walked. *)
Lemma traversal_order_witness :
  map email_from
      (emails (snd (process_pst_folder no_case_table recursion_limit
                      ordered_tree (mkSinks [] (mkStringIO false [])))))
  = [lit "root 0"; lit "root 2"; lit "first 0"; lit "first first 0";
     lit "second 0"]
  /\ map email_from (dfs_records no_case_table ordered_tree)
     = [lit "root 0"; lit "root 2"; lit "first 0"; lit "first first 0";
        lit "second 0"]
  /\ map email_from
         (emails (snd (process_pst_folder no_case_table 1 ordered_tree
                         (mkSinks [] (mkStringIO false [])))))
     = [lit "root 0"; lit "root 2"; lit "first 0"; lit "second 0"]
  /\ range 3 = [0; 1; 2]%Z.
Proof.
  destruct (traversal_order no_case_table recursion_limit ordered_tree
              (mkSinks [] (mkStringIO false [])))
    as (_ & Hemails & _ & Hfits & Hrange & _).
  destruct (Hfits eq_refl) as [Hrecords _].
  destruct (traversal_order no_case_table 1 ordered_tree
              (mkSinks [] (mkStringIO false [])))
    as (_ & Hshort & _).
  split; [rewrite Hemails, Hrecords; reflexivity |].
  split; [reflexivity |].
  split; [rewrite Hshort; reflexivity |].
  rewrite Hrange. reflexivity.
Defined.

Lemma failing_folder_is_cut_short_witness :
  process_pst_folder no_case_table recursion_limit unreadable_folder
                     (mkSinks [] (mkStringIO false []))
  = (Ok tt, mkSinks [] (mkStringIO false []))
  /\ process_pst_folder no_case_table recursion_limit half_read_folder
                        (mkSinks [] (mkStringIO false []))
     = (Ok tt, snd (message_loop no_case_table half_read_folder 1
                      (mkSinks [] (mkStringIO false []))))
  /\ emails (snd (process_pst_folder no_case_table 2 lost_sub_folder_tree
                    (mkSinks [] (mkStringIO false []))))
     = [] ++ flat_map (message_record no_case_table lost_sub_folder_tree)
                      (range 1)
       ++ flat_map (sub_records_within no_case_table 1 lost_sub_folder_tree)
                   (range 1)
  /\ emails (snd (process_pst_folder no_case_table 2 family_tree
                    (mkSinks [] (mkStringIO false []))))
     = [] ++ flat_map (message_record no_case_table family_tree) (range 0)
       ++ flat_map (sub_records_within no_case_table 1 family_tree)
                   (range 3)
  /\ process_pst_folder no_case_table 0 lost_sub_folder_tree
                        (mkSinks [] (mkStringIO false []))
     = (Ok tt, snd (message_loop no_case_table lost_sub_folder_tree 1
                      (mkSinks [] (mkStringIO false [])))).
Proof.
  split; [| split; [| split; [| split]]].
  - exact (proj1 (proj2 (proj2
             (failing_folder_is_cut_short no_case_table recursion_limit
                unreadable_folder (mkSinks [] (mkStringIO false [])))))
             _ eq_refl).
  - exact (proj1 (proj2 (proj2 (proj2
             (failing_folder_is_cut_short no_case_table recursion_limit
                half_read_folder (mkSinks [] (mkStringIO false []))))))
             1%Z _ eq_refl eq_refl).
  - refine (proj1 (proj2 (proj2 (proj2 (proj2
              (failing_folder_is_cut_short no_case_table 2
                 lost_sub_folder_tree
                 (mkSinks [] (mkStringIO false [])))))))
              1%nat 1%Z 3%Z 1%Z _ eq_refl eq_refl eq_refl _ eq_refl _).
    + lia.
    + intros j Hj. assert (j = 0)%Z as -> by lia. eexists; reflexivity.
  - refine (proj1 (proj2 (proj2 (proj2 (proj2 (proj2
              (failing_folder_is_cut_short no_case_table 2 family_tree
                 (mkSinks [] (mkStringIO false []))))))))
              1%nat 0%Z 3%Z eq_refl eq_refl eq_refl _).
    intros j Hj. assert (j = 0 \/ j = 1 \/ j = 2)%Z as [-> | [-> | ->]]
      by lia; eexists; reflexivity.
  - exact (proj2 (proj2 (proj2 (proj2 (proj2 (proj2 (proj2
             (failing_folder_is_cut_short no_case_table 0
                lost_sub_folder_tree
                (mkSinks [] (mkStringIO false [])))))))))
             1%Z 3%Z eq_refl eq_refl eq_refl).
Defined.

Lemma recipient_extraction_witness :
  extract_to no_case_table two_to_headers = lit "first@example.com"
  /\ extract_to no_case_table (lit "Subject: to: nobody") = [].
Proof.
  split.
  - exact (proj1 (recipient_extraction no_case_table two_to_headers)
             [lit "Subject: x"] [lit "to: second@example.com"]
             (lit "TO: first@example.com" ++ [13])
             eq_refl eq_refl eq_refl).
  - exact (proj1 (proj2 (recipient_extraction no_case_table
                           (lit "Subject: to: nobody")))
             eq_refl).
Defined.

Lemma attachment_fallback_witness :
  read_attachments message_with_attachments
  = Ok [lit "report.pdf"; lit "A.TXT"]
  /\ ~ In [] (slot_entry (get_attachment message_with_attachments 2)).
Proof.
  split.
  - exact (proj1 (attachment_fallback message_with_attachments)).
  - exact (proj2 (proj2 (proj2 (proj2
             (attachment_fallback message_with_attachments)))
             (get_attachment message_with_attachments 2))).
Defined.

Lemma upload_accepted : accepted upload.
Proof.
  unfold accepted. split; [reflexivity | split; [reflexivity |]].
  vm_compute. discriminate.
Qed.

Lemma upload_within_limit (archive : PstFile) :
  (content_length (env_of archive) <= MAX_CONTENT_LENGTH)%Z.
Proof. vm_compute. discriminate. Qed.

Lemma deep_chain_run :
  emails (snd (process_pst_folder no_case_table 990 deep_chain
                 (mkSinks [] (mkStringIO false (csv_line header_row)))))
  = [].
Proof. vm_compute. reflexivity. Qed.

(** An archive without any message, and one whose only message lies
    below the recursion limit, are answered with status 400; an archive
    that cannot be opened is answered with status 500; an archive with a
    message in a folder whose sub-folder count cannot be read is
    answered with status 200. *)
Lemma empty_result_is_reported_witness :
  analyze_pst no_case_table (env_of (archive_of empty_tree))
  = mkResponse (JError (lit "No emails found in PST file")) 400 None
  /\ analyze_pst no_case_table (env_of (archive_of deep_chain))
     = mkResponse (JError (lit "No emails found in PST file")) 400 None
  /\ analyze_pst no_case_table (env_of broken_archive)
     = mkResponse (JError (lit "unable to open file")) 500 None
  /\ status (analyze_pst no_case_table
               (env_of (archive_of half_read_folder)))
     = 200%Z.
Proof.
  split; [| split; [| split]].
  - exact (proj1 (empty_result_is_reported no_case_table
                    (env_of (archive_of empty_tree)) upload
                    (upload_within_limit _) eq_refl upload_accepted
                    eq_refl eq_refl)
             empty_tree eq_refl eq_refl eq_refl eq_refl).
  - exact (proj1 (empty_result_is_reported no_case_table
                    (env_of (archive_of deep_chain)) upload
                    (upload_within_limit _) eq_refl upload_accepted
                    eq_refl eq_refl)
             deep_chain eq_refl eq_refl eq_refl deep_chain_run).
  - exact (proj1 (proj2 (proj2
             (empty_result_is_reported no_case_table
                (env_of broken_archive) upload
                (upload_within_limit _) eq_refl upload_accepted
                eq_refl eq_refl)))
             _ eq_refl).
  - refine (proj1 (proj2 (proj2 (proj2
              (empty_result_is_reported no_case_table
                 (env_of (archive_of half_read_folder)) upload
                 (upload_within_limit _) eq_refl upload_accepted
                 eq_refl eq_refl)))
              half_read_folder eq_refl eq_refl eq_refl _ eq_refl)).
    discriminate.
Defined.

Lemma date_is_str_of_delivery_time_witness :
  exists built,
    build_email_data no_case_table (folder_of [Ok undated_message] []) 0
    = Ok built
    /\ email_date (fst built) = [78; 111; 110; 101].
Proof.
  eexists. split; [reflexivity |].
  destruct (date_is_str_of_delivery_time no_case_table
              (folder_of [Ok undated_message] []) 0 _ eq_refl)
    as (message & time & Hmessage & Htime & _ & _ & Hnone).
  injection Hmessage as <-. injection Htime as <-.
  exact (proj1 (Hnone eq_refl)).
Defined.

(* ================================================================= *)
(** * The further properties on archives *)

(** The two bytes of [hi] are ASCII, and are decoded to [hi]. *)
Lemma ascii_bytes_decode_to_themselves_witness :
  decode_if_bytes (VBytes [x68; x69]%byte) = Ok (lit "hi").
Proof.
  exact (ascii_bytes_decode_to_themselves [x68; x69]%byte eq_refl).
Defined.

(** A walk of [lost_sub_folder_tree] into sinks that hold the header
    line: two records and their two lines, behind the header line. A
    walk of the chain of 1500 folders within the recursion limit
    appends nothing. *)
Lemma walk_appends_to_both_sinks_witness :
  emails (snd (process_pst_folder no_case_table recursion_limit
                 lost_sub_folder_tree
                 (mkSinks [] (mkStringIO false (csv_line header_row)))))
  = map fst (built_within no_case_table recursion_limit
                          lost_sub_folder_tree)
  /\ getvalue (csv_data
       (snd (process_pst_folder no_case_table recursion_limit
               lost_sub_folder_tree
               (mkSinks [] (mkStringIO false (csv_line header_row))))))
     = csv_line header_row
       ++ flat_map (fun built => csv_line (snd built))
                   (built_within no_case_table recursion_limit
                                 lost_sub_folder_tree)
  /\ List.length (built_within no_case_table recursion_limit
                               lost_sub_folder_tree) = 2%nat
  /\ getvalue (csv_data
       (snd (process_pst_folder no_case_table recursion_limit deep_chain
               (mkSinks [] (mkStringIO false (csv_line header_row))))))
     = csv_line header_row.
Proof.
  destruct (walk_appends_to_both_sinks no_case_table recursion_limit
              lost_sub_folder_tree
              (mkSinks [] (mkStringIO false (csv_line header_row)))
              eq_refl) as (Hemails & Hvalue & _ & _).
  destruct (walk_appends_to_both_sinks no_case_table recursion_limit
              deep_chain
              (mkSinks [] (mkStringIO false (csv_line header_row)))
              eq_refl) as (_ & Hdeep & _).
  split; [exact Hemails |]. split; [exact Hvalue |].
  split; [reflexivity |].
  rewrite Hdeep. vm_compute. reflexivity.
Defined.

(** The request for [lost_sub_folder_tree] succeeds, and its CSV file
    is read back as the header row and the rows of its two records. *)
Lemma sinks_side_by_side_witness :
  status (analyze_pst no_case_table
            (env_of (archive_of lost_sub_folder_tree))) = 200%Z
  /\ exists root,
       json (analyze_pst no_case_table
               (env_of (archive_of lost_sub_folder_tree)))
       = JEmails (map fst (built_within no_case_table 990 root))
                 (csv_url_of (env_of (archive_of lost_sub_folder_tree)))
       /\ csv_reader (csv_payload no_case_table 990 root)
          = Some (map csv_text header_row
                  :: map (fun built => map csv_text (snd built))
                         (built_within no_case_table 990 root))
       /\ List.length (built_within no_case_table 990 root) = 2%nat.
Proof.
  split; [reflexivity |].
  destruct (sinks_side_by_side no_case_table
              (env_of (archive_of lost_sub_folder_tree)) eq_refl)
    as (root & Hroot & Hanswer & Hread & _).
  exists root. rewrite Hanswer. split; [reflexivity |].
  injection Hroot as <-.
  split; [exact (Hread eq_refl) | reflexivity].
Defined.

(** An upload named [notes.txt] is answered with status 400 whether the
    archive can be opened or not; one of 106 MB is answered by the
    handler of status 413, under any name. *)
Lemma rejected_upload_is_answered_unread_witness :
  analyze_pst no_case_table (env_with text_upload broken_archive)
  = analyze_pst no_case_table
                (env_with text_upload (archive_of one_message_folder))
  /\ status (analyze_pst no_case_table
               (env_with text_upload (archive_of one_message_folder)))
     = 400%Z
  /\ analyze_pst no_case_table
                 (env_with oversized_text_upload
                           (archive_of one_message_folder))
     = mkResponse
         (JError (lit "File too large. Maximum allowed size is 100.0MB"))
         413 None.
Proof.
  assert (Hrejected : ~ accepted text_upload).
  { intros (_ & Hpst & _). vm_compute in Hpst. discriminate Hpst. }
  destruct (rejected_upload_is_answered_unread no_case_table
              (env_with text_upload (archive_of one_message_folder))
              (env_with text_upload broken_archive)
              text_upload text_upload eq_refl eq_refl eq_refl eq_refl
              eq_refl (or_intror Hrejected))
    as (Hsame & _ & _ & Hstatus & _).
  split; [exact Hsame |]. split; [exact Hstatus |].
  refine (proj1 (proj2 (proj2 (proj2 (proj2
            (rejected_upload_is_answered_unread no_case_table
               (env_with oversized_text_upload
                         (archive_of one_message_folder))
               (env_with oversized_text_upload
                         (archive_of one_message_folder))
               oversized_text_upload oversized_text_upload
               eq_refl eq_refl eq_refl eq_refl eq_refl
               (or_introl eq_refl)))))) eq_refl).
Defined.

(** An archive that cannot be closed is answered with status 500 and
    the text of the exception, although its message was extracted; a
    CSV file that cannot be written in full is answered the same way,
    and what was written of it stays under [uploads/]. *)
Lemma failure_is_reported_with_its_text_witness :
  records_within no_case_table 990 one_message_folder <> []
  /\ analyze_pst no_case_table (env_of unclosed_archive)
     = mkResponse (JError (lit "unable to close file")) 500 None
  /\ analyze_pst no_case_table
                 (env_full_disk (archive_of one_message_folder))
     = mkResponse (JError (lit "[Errno 28] No space left on device")) 500
                  (Some (lit "uploads/extracted_emails_20240102_030406.csv",
                         lit "From,To,Su")).
Proof.
  split; [discriminate |].
  assert (Hclose : fails_with no_case_table (env_of unclosed_archive)
                     upload (OSError (lit "unable to close file"))).
  { right. split; [reflexivity |]. right. split; [reflexivity |].
    right. exists one_message_folder. split; [reflexivity |].
    left. reflexivity. }
  destruct (proj1 (failure_is_reported_with_its_text no_case_table
                     (env_of unclosed_archive) upload
                     (upload_within_limit _) eq_refl upload_accepted
                     eq_refl) _ Hclose) as [Hjson Hstatus].
  split.
  - destruct (analyze_pst no_case_table (env_of unclosed_archive))
      as [j c f] eqn:Hanswer.
    cbn [json status] in Hjson, Hstatus. subst j c.
    vm_compute in Hanswer. injection Hanswer as <-. reflexivity.
  - reflexivity.
Defined.

(** The URL of an export is routed to the name of its file, which is
    looked up under [uploads/]. *)
Lemma download_stays_in_uploads_witness :
  route_download (lit "/download/extracted_emails_20240102_030406.csv")
  = Some (lit "extracted_emails_20240102_030406.csv")
  /\ os_path_join UPLOAD_FOLDER (lit "extracted_emails_20240102_030406.csv")
     = lit "uploads/extracted_emails_20240102_030406.csv"
  /\ route_download (lit "/download/../app.py") = None.
Proof.
  split; [reflexivity |].
  split; [| reflexivity].
  exact (proj1 (proj2 (proj2
           (download_stays_in_uploads
              (lit "/download/extracted_emails_20240102_030406.csv")
              (lit "extracted_emails_20240102_030406.csv") eq_refl)))).
Defined.

(** The URL that the request for [one_message_folder] answers with is
    routed to the name of the file that the request wrote; a disk that
    holds the file sends it, and a disk on which [send_file] does not
    find the path answers with status 500. *)
Lemma csv_url_names_the_file_witness :
  route_download (csv_url_of (env_of (archive_of one_message_folder)))
  = Some (lit "extracted_emails_20240102_030406.csv")
  /\ download_file
       (disk_with (csv_path (env_of (archive_of one_message_folder)))
                  (csv_payload no_case_table 990 one_message_folder))
       (lit "extracted_emails_20240102_030406.csv")
     = Sent (csv_payload no_case_table 990 one_message_folder)
  /\ download_file disk_elsewhere
                   (lit "extracted_emails_20240102_030406.csv")
     = NotSent (lit "[Errno 2] No such file or directory") 500.
Proof.
  destruct (csv_url_names_the_file no_case_table
              (env_of (archive_of one_message_folder))
              (records_within no_case_table 990 one_message_folder)
              (csv_url_of (env_of (archive_of one_message_folder)))
              (csv_path (env_of (archive_of one_message_folder)))
              (csv_payload no_case_table 990 one_message_folder)
              eq_refl eq_refl)
    as (Hroute & _ & _ & Hdownload).
  split; [exact Hroute |].
  split; [etransitivity; [exact (Hdownload (disk_with _ _)) | reflexivity] |].
  etransitivity; [exact (Hdownload disk_elsewhere) | reflexivity].
Defined.
